(** * Policy training tasks (trax/rl/policy_tasks.py)

    A shallow embedding of [PolicyTrainTask.policy_batch] and of the entropy
    metric of [PolicyEvalTask], and the properties of the batch-construction
    pipeline.

    Modelling conventions.
    - A numpy array is a shape (a tuple of naturals) together with its
      entries, indexed by multi-indices.
    - The embedding is generic in the arithmetic of the entries.  Two
      arithmetics are given: [binary64], the float64 arithmetic the code runs
      on, and [exact], real numbers, in which the algebra of the
      normalisation is carried out.  What does not depend on arithmetic is
      proved for every arithmetic.
    - [policy_batch] normalises the advantages in place ([-=], [/=]), so the
      arrays live in a memory of named cells, one for each of the six arrays
      of the batch (distinct arrays) and one for each array allocated during
      the call; array objects are views (a cell and a shape) onto that
      memory.
    - The injected functions are pure.  The advantage estimator returns a
      new array or a view of one of its arguments.
    - Python exceptions are values of [exception]; a computation is a
      function from states to a result and a state.
    - Every array is a writable, C-contiguous array of floats: its entries
      are numbers of the arithmetic.  Arrays of other dtypes are outside the
      model; in particular the casting error (a [TypeError]) that the
      in-place normalisation of an integer array raises at line 136 does not
      occur in it.  The statements about which errors are raised, and about
      when the call returns, are statements about float arrays.
    - [np.mean] and [np.std] add the entries in the order in which numpy
      adds the entries of a contiguous array (pairwise, see [sum]).  Over a
      view that is a proper column slice of a larger array numpy adds row
      by row; exact arithmetic does not see the difference, and no float64
      statement below is about such a view.
    - [jnp.mean], in the entropy metric, is modelled by the same mean.  In
      [exact] this is the arithmetic mean.  In floating point neither the
      order of the additions nor the precision (float32 by default) is
      fixed by the code, and the one float64 statement about the metric, on
      the empty batch, depends on neither. *)

From Stdlib Require Import List Arith Bool Lia ZArith Uint63 Floats Reals Lra.
Import ListNotations.

Set Implicit Arguments.
Set Primitive Projections.

(** ** Arithmetic *)

(** The operations the code applies to array entries, [x == 0], finiteness,
    and the one law of multiplication that holds in float64 as well as in
    the reals: a finite number times zero is zero. *)
Record arithmetic : Type := {
  num : Type;
  zero : num;
  add : num -> num -> num;
  sub : num -> num -> num;
  mul : num -> num -> num;
  div : num -> num -> num;
  root : num -> num;
  of_count : nat -> num;
  is_zero : num -> Prop;
  finite : num -> Prop;
  mul_zero : forall x m, finite x -> is_zero m -> is_zero (mul x m)
}.

Lemma Rmult_zero (x m : R) : True -> m = 0%R -> (x * m)%R = 0%R.
Proof. intros _ ->. apply Rmult_0_r. Qed.

(** Real numbers: float64 without rounding, infinities and nan. *)
Definition exact : arithmetic :=
  {| num := R;
     zero := 0%R;
     add := Rplus;
     sub := Rminus;
     mul := Rmult;
     div := Rdiv;
     root := R_sqrt.sqrt;
     of_count := INR;
     is_zero := fun x => x = 0%R;
     finite := fun _ => True;
     mul_zero := Rmult_zero |}.

Lemma is_zero_spec (m : float) :
  PrimFloat.is_zero m = true -> exists s, Prim2SF m = S754_zero s.
Proof.
  unfold PrimFloat.is_zero. rewrite eqb_spec.
  change (Prim2SF PrimFloat.zero) with (S754_zero false).
  intros H.
  destruct (Prim2SF m) as [s| s| |s mm e]; try destruct s;
    cbv in H; try discriminate; eauto.
Qed.

Lemma is_finite_spec (x : float) :
  PrimFloat.is_finite x = true ->
  (exists s, Prim2SF x = S754_zero s) \/
  (exists s m e, Prim2SF x = S754_finite s m e).
Proof.
  unfold PrimFloat.is_finite, PrimFloat.is_nan, PrimFloat.is_infinity.
  rewrite !eqb_spec, abs_spec.
  change (Prim2SF infinity) with (S754_infinity false).
  intros H.
  destruct (Prim2SF x) as [s| s| |s mm e]; eauto;
    try destruct s; cbv in H; discriminate.
Qed.

(** In IEEE 754 arithmetic a finite number times [+0] or [-0] is a zero. *)
Lemma float_mul_zero (x m : float) :
  PrimFloat.is_finite x = true -> PrimFloat.is_zero m = true ->
  PrimFloat.is_zero (PrimFloat.mul x m) = true.
Proof.
  intros Hx Hm.
  destruct (@is_zero_spec m Hm) as [sm Em].
  unfold PrimFloat.is_zero. rewrite eqb_spec, mul_spec, Em.
  change (Prim2SF PrimFloat.zero) with (S754_zero false).
  destruct (@is_finite_spec x Hx) as [[s E]|(s & mm & e & E)]; rewrite E;
    reflexivity.
Qed.

(** float64, as numpy computes with it: IEEE 754 binary64, round to nearest
    even.  [x == 0] holds of both zeros. *)
Definition binary64 : arithmetic :=
  {| num := float;
     zero := PrimFloat.zero;
     add := PrimFloat.add;
     sub := PrimFloat.sub;
     mul := PrimFloat.mul;
     div := PrimFloat.div;
     root := PrimFloat.sqrt;
     of_count := fun n => PrimFloat.of_uint63 (Uint63.of_Z (Z.of_nat n));
     is_zero := fun x => PrimFloat.is_zero x = true;
     finite := fun x => PrimFloat.is_finite x = true;
     mul_zero := float_mul_zero |}.

(** ** Arrays *)

Record ndarray (N : arithmetic) : Type := Array {
  shape : list nat;
  item : list nat -> num N
}.

(** [in_range idx s]: the multi-index [idx] addresses an entry of an array of
    shape [s]. *)
Fixpoint in_range (idx s : list nat) : bool :=
  match idx, s with
  | [], [] => true
  | i :: idx', d :: s' => (i <? d) && in_range idx' s'
  | _, _ => false
  end.

(** All multi-indices of a shape, in row-major order. *)
Fixpoint indices (s : list nat) : list (list nat) :=
  match s with
  | [] => [[]]
  | d :: s' => flat_map (fun i => map (cons i) (indices s')) (seq 0 d)
  end.

Fixpoint shape_eqb (s1 s2 : list nat) : bool :=
  match s1, s2 with
  | [], [] => true
  | d1 :: r1, d2 :: r2 => (d1 =? d2) && shape_eqb r1 r2
  | _, _ => false
  end.

(** *** Broadcasting *)

(** numpy's broadcasting rule, on shapes written last axis first. *)
Fixpoint broadcast_rev (s1 s2 : list nat) : option (list nat) :=
  match s1, s2 with
  | [], s => Some s
  | s, [] => Some s
  | d1 :: r1, d2 :: r2 =>
      match broadcast_rev r1 r2 with
      | Some r =>
          if d1 =? d2 then Some (d1 :: r)
          else if d1 =? 1 then Some (d2 :: r)
          else if d2 =? 1 then Some (d1 :: r)
          else None
      | None => None
      end
  end.

Definition broadcast_shapes (s1 s2 : list nat) : option (list nat) :=
  option_map (@rev nat) (broadcast_rev (rev s1) (rev s2)).

Fixpoint clamp (s idx : list nat) : list nat :=
  match s, idx with
  | d :: s', i :: idx' => (if d =? 1 then 0 else i) :: clamp s' idx'
  | _, _ => []
  end.

(** The entry of an operand of shape [s] that takes part in the entry [idx]
    of a broadcast result: leading axes the operand lacks are dropped, axes of
    length one are pinned to 0. *)
Definition bidx (s idx : list nat) : list nat :=
  clamp s (skipn (length idx - length s) idx).

(** ** Memory *)

(** The arrays a call of [policy_batch] can reach: the six fields of the
    trajectory batch it is given, and the arrays allocated during the call
    ([values], a new array returned by the advantage estimator, [weights]). *)
Inductive name : Type :=
  | Observations | Actions | Rewards | Returns | Dones | Mask
  | Values | Estimate | Weights.

Definition name_eqb (n1 n2 : name) : bool :=
  match n1, n2 with
  | Observations, Observations | Actions, Actions | Rewards, Rewards
  | Returns, Returns | Dones, Dones | Mask, Mask
  | Values, Values | Estimate, Estimate | Weights, Weights => true
  | _, _ => false
  end.

Definition memory (N : arithmetic) : Type := name -> ndarray N.

(** An array object: a view of shape [vshape] onto the cell [base].  Basic
    slicing [x[:, :k]] yields such a view, sharing memory with [x]. *)
Record ref : Type := View { base : name; vshape : list nat }.

(** ** The trajectory batch and the task *)

(** [trax.rl.task.TrajectoryNp], the fields [policy_batch] uses. *)
Record TrajectoryNp (N : arithmetic) : Type := {
  observations : ndarray N;
  actions : ndarray N;
  rewards : ndarray N;
  returns : ndarray N;
  dones : ndarray N;
  mask : ndarray N
}.

(** The arguments of the advantage estimator. *)
Inductive est_arg : Type := Arg_rewards | Arg_returns | Arg_dones | Arg_values.

Definition arg_cell (x : est_arg) : name :=
  match x with
  | Arg_rewards => Rewards
  | Arg_returns => Returns
  | Arg_dones => Dones
  | Arg_values => Values
  end.

(** What an advantage estimator returns: a newly allocated array, or a slice
    [x[:, :k]] of one of its arguments, which shares the argument's memory
    ([k] at least the length of axis 1 gives the whole of [x]; an argument
    with fewer than two axes is returned as it is). *)
Inductive estimate (N : arithmetic) : Type :=
  | New (a : ndarray N)
  | Slice (x : est_arg) (k : nat).
Arguments Slice {N} x k.

(** The fields [__init__] stores on [self]. *)
Record PolicyTrainTask (N : arithmetic) : Type := {
  value_fn : TrajectoryNp N -> ndarray N;
  advantage_estimator :
    forall (rewards_ returns_ dones_ values_ : ndarray N), estimate N;
  weight_fn : ndarray N -> ndarray N;
  advantage_normalization : bool;
  advantage_normalization_epsilon : num N
}.

(** ** Exceptions and the computation monad *)

(** The exceptions [policy_batch] raises on writable float arrays.  [assert c]
    without a message raises [AssertionError()] : its [args] are empty.
    [args] is kept so that what an error carries can be stated. *)
Inductive exception : Type :=
  | AssertionError (args : list (list nat))
  | ValueError
  | IndexError.

Inductive result (A : Type) : Type :=
  | Ok (a : A)
  | Raise (e : exception).
Arguments Raise {A} e.

(** Calls of the injected functions and array arithmetic, recorded in the
    order they happen (most recent first).  The call of the advantage
    estimator is recorded with the array it returned, the call of the weight
    function with the array it was applied to, the product with its two
    operands. *)
Inductive event (N : arithmetic) : Type :=
  | Call_value_fn
  | Call_advantage_estimator (result_ : ndarray N)
  | Call_weight_fn (argument : ndarray N)
  | Arith_mean | Arith_std | Arith_isub | Arith_idiv
  | Arith_multiply (left_ right_ : ndarray N).
Arguments Call_value_fn {N}.
Arguments Arith_mean {N}.
Arguments Arith_std {N}.
Arguments Arith_isub {N}.
Arguments Arith_idiv {N}.

Record state (N : arithmetic) : Type :=
  State { mem : memory N; log : list (event N) }.

Definition M (N : arithmetic) (A : Type) : Type :=
  state N -> result A * state N.

(** The policy distribution, as far as the entropy metric uses it. *)
Record Distribution (N : arithmetic) : Type := {
  entropy : ndarray N -> ndarray N
}.

Section Embedding.

Context {N : arithmetic}.

(** [a.ravel()]: the entries, flattened. *)
Definition ravel (a : ndarray N) : list (num N) :=
  map (item a) (indices (shape a)).

(** *** Sums, as numpy takes them

    [np.add.reduce] over a contiguous array starts from zero and adds the
    pairwise sum of the entries (numpy's [pairwise_sum], block size 128):
    - fewer than 8 entries are added from left to right, starting from zero;
    - 8 to 128 entries are added into 8 accumulators, the entries [8b + j]
      into accumulator [j]; the accumulators are then added as a balanced
      tree, and the entries after the last full block of 8 are added to the
      result one by one;
    - more than 128 entries are split in two, the first part being half of
      them rounded down to a multiple of 8, and the two sums are added. *)

(** The 8 accumulators after one more block of 8 entries. *)
Definition add_lanes (r block : list (num N)) : list (num N) :=
  map (fun p => add N (fst p) (snd p)) (combine r block).

(** The accumulators after [blocks] more blocks, and the entries left. *)
Fixpoint accumulate (blocks : nat) (r rest : list (num N))
  : list (num N) * list (num N) :=
  match blocks with
  | 0 => (r, rest)
  | S b => accumulate b (add_lanes r (firstn 8 rest)) (skipn 8 rest)
  end.

(** [((r0 + r1) + (r2 + r3)) + ((r4 + r5) + (r6 + r7))]. *)
Definition add_tree (r : list (num N)) : num N :=
  match r with
  | [r0; r1; r2; r3; r4; r5; r6; r7] =>
      add N (add N (add N r0 r1) (add N r2 r3))
            (add N (add N r4 r5) (add N r6 r7))
  | _ => fold_left (@add N) r (zero N)
  end.

(** The sum of a block of at least 8 entries. *)
Definition block_sum (l : list (num N)) : num N :=
  let '(r, rest) :=
    accumulate (length l / 8 - 1) (firstn 8 l) (skipn 8 l) in
  fold_left (@add N) rest (add_tree r).

(** [pairwise_sum(a, n)]; the recursion is at most [fuel] deep, and the
    length of the list is fuel enough ([pairwise_sum_fuel] below). *)
Fixpoint pairwise_sum (fuel : nat) (l : list (num N)) : num N :=
  if length l <? 8 then fold_left (@add N) l (zero N)
  else if length l <=? 128 then block_sum l
  else
    match fuel with
    | 0 => block_sum l
    | S fuel' =>
        let n2 := length l / 2 - (length l / 2) mod 8 in
        add N (pairwise_sum fuel' (firstn n2 l))
              (pairwise_sum fuel' (skipn n2 l))
    end.

(** [np.add.reduce(a, axis=None)] on the flattened entries of a contiguous
    array. *)
Definition sum (l : list (num N)) : num N :=
  add N (zero N) (pairwise_sum (length l) l).

Definition mean (l : list (num N)) : num N :=
  div N (sum l) (of_count N (length l)).

(** Population standard deviation (numpy's default, ddof = 0): the square
    root of the mean of the squared deviations from the mean. *)
Definition pstd (l : list (num N)) : num N :=
  root N (mean (map (fun x => mul N (sub N x (mean l)) (sub N x (mean l))) l)).

Definition np_mean (a : ndarray N) : num N := mean (ravel a).
Definition np_std (a : ndarray N) : num N := pstd (ravel a).

Definition update (m : memory N) (n : name) (a : ndarray N) : memory N :=
  fun n' => if name_eqb n' n then a else m n'.

(** The array seen through a view. *)
Definition deref (m : memory N) (r : ref) : ndarray N :=
  {| shape := vshape r; item := item (m (base r)) |}.

(** In-place elementwise update of the entries inside the box [box]. *)
Definition inplace (box : list nat) (f : num N -> num N) (a : ndarray N)
  : ndarray N :=
  {| shape := shape a;
     item := fun idx => if in_range idx box then f (item a idx) else item a idx |}.

Definition ret {A} (a : A) : M N A := fun s => (Ok a, s).

Definition raise {A} (e : exception) : M N A := fun s => (Raise e, s).

Definition bind {A B} (c : M N A) (k : A -> M N B) : M N B :=
  fun s =>
    match c s with
    | (Ok a, s') => k a s'
    | (Raise e, s') => (Raise e, s')
    end.

Notation "x <- c ;; k" := (bind c (fun x => k))
  (at level 61, c at next level, right associativity).
Notation "c ;;; k" := (bind c (fun _ => k))
  (at level 61, right associativity).

Definition assert (c : bool) : M N unit :=
  if c then ret tt else raise (AssertionError []).

Definition emit (e : event N) : M N unit :=
  fun s => (Ok tt, {| mem := mem s; log := e :: log s |}).

Definition get_mem : M N (memory N) := fun s => (Ok (mem s), s).

Definition store (n : name) (a : ndarray N) : M N ref :=
  fun s => (Ok (View n (shape a)),
            {| mem := update (mem s) n a; log := log s |}).

Definition modify (r : ref) (f : num N -> num N) : M N unit :=
  fun s => (Ok tt,
            {| mem := update (mem s) (base r)
                        (inplace (vshape r) f (mem s (base r)));
               log := log s |}).

(** ** Array operations used by [policy_batch] *)

(** [(a, b) = t] on a tuple [t]. *)
Definition unpack2 (t : list nat) : M N (nat * nat) :=
  match t with
  | [a; b] => ret (a, b)
  | _ => raise ValueError
  end.

(** [t[i]] on a tuple. *)
Definition tuple_get (t : list nat) (i : nat) : M N nat :=
  match nth_error t i with
  | Some d => ret d
  | None => raise IndexError
  end.

(** [trajectory_batch.<field>]: the array object held by the batch. *)
Definition field (n : name) : M N ref :=
  m <- get_mem ;; ret (View n (shape (m n))).

Definition read (r : ref) : M N (ndarray N) :=
  m <- get_mem ;; ret (deref m r).

Definition slice_shape (k : nat) (s : list nat) : option (list nat) :=
  match s with
  | b :: t :: rest => Some (b :: Nat.min k t :: rest)
  | _ => None
  end.

(** [x[:, :k]]: a view; IndexError (too many indices) below two axes. *)
Definition getitem_cols (x : ref) (k : nat) : M N ref :=
  match slice_shape k (vshape x) with
  | Some s => ret (View (base x) s)
  | None => raise IndexError
  end.

(** [np.mean(x)], [np.std(x)]. *)
Definition mean_of (x : ref) : M N (num N) :=
  a <- read x ;; emit Arith_mean ;;; ret (np_mean a).

Definition std_of (x : ref) : M N (num N) :=
  a <- read x ;; emit Arith_std ;;; ret (np_std a).

(** [x -= c], [x /= c] for a scalar [c]: in place, through the view. *)
Definition isub (x : ref) (c : num N) : M N unit :=
  emit Arith_isub ;;; modify x (fun v => sub N v c).

Definition idiv (x : ref) (c : num N) : M N unit :=
  emit Arith_idiv ;;; modify x (fun v => div N v c).

(** [a * b] with broadcasting; a new array. *)
Definition multiply (a b : ndarray N) : M N (ndarray N) :=
  emit (Arith_multiply a b) ;;;
  match broadcast_shapes (shape a) (shape b) with
  | Some s =>
      ret {| shape := s;
             item := fun idx =>
               mul N (item a (bidx (shape a) idx))
                     (item b (bidx (shape b) idx)) |}
  | None => raise ValueError
  end.

(** ** The injected functions *)

Definition batch_of (m : memory N) : TrajectoryNp N :=
  {| observations := m Observations;
     actions := m Actions;
     rewards := m Rewards;
     returns := m Returns;
     dones := m Dones;
     mask := m Mask |}.

(** [np.array(self._value_fn(trajectory_batch))]: the result is copied into
    a new array. *)
Definition call_value_fn (self : PolicyTrainTask N) : M N ref :=
  m <- get_mem ;;
  emit Call_value_fn ;;;
  store Values (value_fn self (batch_of m)).

Definition estimate_ref (m : memory N) (e : estimate N) : ref :=
  match e with
  | New a => View Estimate (shape a)
  | Slice x k =>
      let s := shape (m (arg_cell x)) in
      View (arg_cell x)
           (match slice_shape k s with Some s' => s' | None => s end)
  end.

(** [self._advantage_estimator(rewards=..., returns=..., dones=...,
    values=values)]. *)
Definition call_advantage_estimator (self : PolicyTrainTask N) (values : ref)
  : M N ref :=
  m <- get_mem ;;
  let e := advantage_estimator self (m Rewards) (m Returns) (m Dones)
             (deref m values) in
  advantages <- match e with
                | New a => store Estimate a
                | Slice _ _ => ret (estimate_ref m e)
                end ;;
  a <- read advantages ;;
  emit (Call_advantage_estimator a) ;;;
  ret advantages.

Definition call_weight_fn (self : PolicyTrainTask N) (advantages : ref)
  : M N (ndarray N) :=
  a <- read advantages ;;
  emit (Call_weight_fn a) ;;;
  ret (weight_fn self a).

(** ** [PolicyTrainTask.policy_batch] *)

(** Lines 134-137: the in-place normalisation. *)
Definition normalize_advantages (self : PolicyTrainTask N) (advantages : ref)
  : M N unit :=
  mu <- mean_of advantages ;;
  isub advantages mu ;;;
  sigma <- std_of advantages ;;
  idiv advantages (add N sigma (advantage_normalization_epsilon self)).

Definition policy_batch (self : PolicyTrainTask N) : M N (ref * ref * ref) :=
  obs <- field Observations ;;
  act <- field Actions ;;
  msk <- field Mask ;;
  bt <- unpack2 (firstn 2 (vshape obs)) ;;
  let '(batch_size, seq_len) := bt in
  assert (shape_eqb (firstn 2 (vshape act)) [batch_size; seq_len]) ;;;
  assert (shape_eqb (vshape msk) [batch_size; seq_len]) ;;;
  values <- call_value_fn self ;;
  assert (shape_eqb (vshape values) [batch_size; seq_len]) ;;;
  advantages <- call_advantage_estimator self values ;;
  adv_seq_len <- tuple_get (vshape advantages) 1 ;;
  assert (adv_seq_len <=? seq_len) ;;;
  assert (shape_eqb (vshape advantages) [batch_size; adv_seq_len]) ;;;
  (if advantage_normalization self
   then normalize_advantages self advantages
   else ret tt) ;;;
  observations_ <- getitem_cols obs adv_seq_len ;;
  actions_ <- getitem_cols act adv_seq_len ;;
  mask_ <- getitem_cols msk adv_seq_len ;;
  w <- call_weight_fn self advantages ;;
  m <- read mask_ ;;
  wm <- multiply w m ;;
  weights <- store Weights wm ;;
  assert (shape_eqb (vshape weights) [batch_size; adv_seq_len]) ;;;
  ret (observations_, actions_, weights).

(** The state in which [policy_batch] is entered on a given batch: the six
    fields hold the batch, nothing has been allocated or called yet. *)
Definition unallocated : ndarray N :=
  {| shape := [0]; item := fun _ => zero N |}.

Definition load (tb : TrajectoryNp N) : memory N :=
  fun n =>
    match n with
    | Observations => observations tb
    | Actions => actions tb
    | Rewards => rewards tb
    | Returns => returns tb
    | Dones => dones tb
    | Mask => mask tb
    | Values | Estimate | Weights => unallocated
    end.

Definition enter (tb : TrajectoryNp N) : state N :=
  {| mem := load tb; log := [] |}.

(** [task.policy_batch(trajectory_batch)], the spec's [build]. *)
Definition build (self : PolicyTrainTask N) (trajectory_batch : TrajectoryNp N)
  : result (ref * ref * ref) * state N :=
  policy_batch self (enter trajectory_batch).

(** ** [PolicyEvalTask.entropy_metric] *)

(** [Entropy(policy_inputs, actions, weights)]; [actions] and [weights] are
    deleted on entry, whatever objects they are.  [jnp.mean] is the sum of
    the entries divided by their number; the order of the additions is the
    one of [sum]. *)
Definition entropy_metric (policy_dist : Distribution N) {A W : Type}
    (policy_inputs : ndarray N) (actions_ : A) (weights_ : W) : num N :=
  np_mean (entropy policy_dist policy_inputs).

(** ** The stages of a run of [policy_batch], in closed form *)

Section Stages.

Variable self : PolicyTrainTask N.
Variable tb : TrajectoryNp N.

(** Memory after [values = np.array(self._value_fn(trajectory_batch))]. *)
Definition mem_values : memory N :=
  update (load tb) Values (value_fn self tb).

Definition the_estimate : estimate N :=
  advantage_estimator self (rewards tb) (returns tb) (dones tb)
    (value_fn self tb).

(** The array object bound to [advantages]. *)
Definition advantages_ref : ref := estimate_ref mem_values the_estimate.

(** Memory after the call of the advantage estimator. *)
Definition mem_estimate : memory N :=
  match the_estimate with
  | New a => update mem_values Estimate a
  | Slice _ _ => mem_values
  end.

(** The advantages as the estimator returned them. *)
Definition raw_advantages : ndarray N := deref mem_estimate advantages_ref.

Definition centred (m : memory N) : memory N :=
  update m (base advantages_ref)
    (inplace (vshape advantages_ref)
       (fun v => sub N v (np_mean (deref m advantages_ref)))
       (m (base advantages_ref))).

Definition scaled (m : memory N) : memory N :=
  update m (base advantages_ref)
    (inplace (vshape advantages_ref)
       (fun v => div N v (add N (np_std (deref m advantages_ref))
                                (advantage_normalization_epsilon self)))
       (m (base advantages_ref))).

(** Memory after lines 134-137. *)
Definition mem_normalized : memory N :=
  if advantage_normalization self
  then scaled (centred mem_estimate)
  else mem_estimate.

(** The advantages [weight_fn] is applied to. *)
Definition advantages_array : ndarray N := deref mem_normalized advantages_ref.

(** The mask the weights are multiplied with. *)
Definition mask_trimmed (batch_size adv_seq_len : nat) : ndarray N :=
  deref mem_normalized (View Mask [batch_size; adv_seq_len]).

Definition weights_array (batch_size adv_seq_len : nat) : ndarray N :=
  let w := weight_fn self advantages_array in
  {| shape := [batch_size; adv_seq_len];
     item := fun idx =>
       mul N (item w (bidx (shape w) idx))
             (item (mem_normalized Mask) (bidx [batch_size; adv_seq_len] idx)) |}.

Definition mem_final (batch_size adv_seq_len : nat) : memory N :=
  update mem_normalized Weights (weights_array batch_size adv_seq_len).

Definition log_estimate : list (event N) :=
  [Call_advantage_estimator raw_advantages; Call_value_fn].

Definition log_normalized : list (event N) :=
  (if advantage_normalization self
   then [Arith_idiv; Arith_std; Arith_isub; Arith_mean]
   else [])
  ++ log_estimate.

Definition log_final (batch_size adv_seq_len : nat) : list (event N) :=
  Arith_multiply (weight_fn self advantages_array)
    (mask_trimmed batch_size adv_seq_len)
  :: Call_weight_fn advantages_array :: log_normalized.

(** The conditions under which [policy_batch] runs to its [return]. *)
Record accepted (B T k : nat) (ro ra : list nat) : Prop := {
  acc_observations : shape (observations tb) = B :: T :: ro;
  acc_actions : shape (actions tb) = B :: T :: ra;
  acc_mask : shape (mask tb) = [B; T];
  acc_values : shape (value_fn self tb) = [B; T];
  acc_advantages : vshape advantages_ref = [B; k];
  acc_margin : k <= T;
  acc_weights :
    broadcast_shapes (shape (weight_fn self advantages_array)) [B; k]
    = Some [B; k]
}.

(** The assertions of lines 111-112 hold. *)
Definition batch_checked (B T : nat) : Prop :=
  firstn 2 (shape (observations tb)) = [B; T] /\
  firstn 2 (shape (actions tb)) = [B; T] /\
  shape (mask tb) = [B; T].

(** The assertions up to line 115 hold. *)
Definition values_checked (B T : nat) : Prop :=
  batch_checked B T /\ shape (value_fn self tb) = [B; T].

(** The assertions up to line 133 hold. *)
Definition advantages_checked (B T k : nat) : Prop :=
  values_checked B T /\ k <= T /\ vshape advantages_ref = [B; k].

(** The ways a run ends: at the [return], or at the first check that
    fails, in the state reached by then. *)
Inductive outcome : result (ref * ref * ref) * state N -> Prop :=
| returns_triple B T k ro ra :
    accepted B T k ro ra ->
    outcome (Ok (View Observations (B :: k :: ro),
                 View Actions (B :: k :: ra),
                 View Weights [B; k]),
             State (mem_final B k) (log_final B k))
| fails_unpack :
    (forall B T, firstn 2 (shape (observations tb)) <> [B; T]) ->
    outcome (Raise ValueError, enter tb)
| fails_actions B T :
    firstn 2 (shape (observations tb)) = [B; T] ->
    firstn 2 (shape (actions tb)) <> [B; T] ->
    outcome (Raise (AssertionError []), enter tb)
| fails_mask B T :
    firstn 2 (shape (observations tb)) = [B; T] ->
    firstn 2 (shape (actions tb)) = [B; T] ->
    shape (mask tb) <> [B; T] ->
    outcome (Raise (AssertionError []), enter tb)
| fails_values B T :
    batch_checked B T ->
    shape (value_fn self tb) <> [B; T] ->
    outcome (Raise (AssertionError []), State mem_values [Call_value_fn])
| fails_index B T :
    values_checked B T ->
    nth_error (vshape advantages_ref) 1 = None ->
    outcome (Raise IndexError, State mem_estimate log_estimate)
| fails_margin B T k :
    values_checked B T ->
    nth_error (vshape advantages_ref) 1 = Some k ->
    T < k ->
    outcome (Raise (AssertionError []), State mem_estimate log_estimate)
| fails_advantages B T k :
    values_checked B T ->
    nth_error (vshape advantages_ref) 1 = Some k ->
    k <= T ->
    vshape advantages_ref <> [B; k] ->
    outcome (Raise (AssertionError []), State mem_estimate log_estimate)
| fails_broadcast B T k :
    advantages_checked B T k ->
    broadcast_shapes (shape (weight_fn self advantages_array)) [B; k] = None ->
    outcome (Raise ValueError, State mem_normalized (log_final B k))
| fails_weights B T k s :
    advantages_checked B T k ->
    broadcast_shapes (shape (weight_fn self advantages_array)) [B; k]
    = Some s ->
    s <> [B; k] ->
    outcome (Raise (AssertionError []),
             State (update mem_normalized Weights
                      {| shape := s; item := item (weights_array B k) |})
                   (log_final B k)).

End Stages.

(** ** What the statements below talk about *)

(** [x[:, :k]] as an array: the first [k] timesteps of [x]. *)
Definition prefix_cols (k : nat) (x : ndarray N) : ndarray N :=
  {| shape := match slice_shape k (shape x) with
              | Some s => s
              | None => shape x
              end;
     item := item x |}.

(** The batch as it stands in memory. *)
Definition batch_after (s : state N) : TrajectoryNp N := batch_of (mem s).

(** The code's normalisation of the flattened advantages: subtract the mean
    of all entries, then divide by the population standard deviation of the
    centred entries plus epsilon. *)
Definition normalized (eps : num N) (l : list (num N)) : list (num N) :=
  let centred_ := map (fun x => sub N x (mean l)) l in
  map (fun x => div N x (add N (pstd centred_) eps)) centred_.

(** ** Arrays and tasks for the examples *)

Definition full (s : list nat) (c : num N) : ndarray N :=
  {| shape := s; item := fun _ => c |}.

(** A 0-dimensional array, as [weight_fn(_) = 1] returns. *)
Definition scalar (c : num N) : ndarray N := full [] c.

(** A [(1, 2)] array. *)
Definition row2 (x y : num N) : ndarray N :=
  {| shape := [1; 2];
     item := fun idx =>
       match idx with
       | [0; 0] => x
       | [0; 1] => y
       | _ => zero N
       end |}.

(** A zero baseline. *)
Definition zero_baseline (tb : TrajectoryNp N) : ndarray N :=
  full (shape (rewards tb)) (zero N).

(** Monte-Carlo advantages [returns[:, :T - margin] - values[:, :T - margin]],
    a new array. *)
Definition monte_carlo (margin : nat)
    (rewards_ returns_ dones_ values_ : ndarray N) : estimate N :=
  New {| shape := match shape returns_ with
                  | b :: t :: rest => b :: (t - margin) :: rest
                  | s => s
                  end;
         item := fun idx => sub N (item returns_ idx) (item values_ idx) |}.

(** An estimator that hands back [returns] itself. *)
Definition returns_itself (rewards_ returns_ dones_ values_ : ndarray N)
  : estimate N :=
  Slice Arg_returns (nth 1 (shape returns_) 0).

(** A2C: the identity as [weight_fn]. *)
Definition a2c_task (margin : nat) (normalization : bool) (eps : num N)
  : PolicyTrainTask N :=
  {| value_fn := zero_baseline;
     advantage_estimator := monte_carlo margin;
     weight_fn := fun a => a;
     advantage_normalization := normalization;
     advantage_normalization_epsilon := eps |}.

Definition aliasing_task (eps : num N) : PolicyTrainTask N :=
  {| value_fn := zero_baseline;
     advantage_estimator := returns_itself;
     weight_fn := fun a => a;
     advantage_normalization := true;
     advantage_normalization_epsilon := eps |}.

(** A weight function that grows fast, as the exponential of AWR does:
    the square. *)
Definition squaring_task : PolicyTrainTask N :=
  {| value_fn := zero_baseline;
     advantage_estimator := monte_carlo 0;
     weight_fn := fun a =>
       {| shape := shape a;
          item := fun idx => mul N (item a idx) (item a idx) |};
     advantage_normalization := false;
     advantage_normalization_epsilon := zero N |}.

(** Behavioural cloning: every advantage is weighted [c] (1 in the
    docstring). *)
Definition cloning_task (c eps : num N) : PolicyTrainTask N :=
  {| value_fn := zero_baseline;
     advantage_estimator := monte_carlo 0;
     weight_fn := fun _ => scalar c;
     advantage_normalization := true;
     advantage_normalization_epsilon := eps |}.

(** A batch with the given arrays of returns and mask, zero observations
    and actions of the shape of the returns. *)
Definition batch_with (returns_ mask_ : ndarray N) : TrajectoryNp N :=
  {| observations := full (shape returns_) (zero N);
     actions := full (shape returns_) (zero N);
     rewards := returns_;
     returns := returns_;
     dones := full (shape returns_) (zero N);
     mask := mask_ |}.

(** The example of the comment at lines 128-131: margin 2,
    [observations.shape == (4, 5, 6)], [rewards.shape == (4, 5)]. *)
Definition entry_number (idx : list nat) : num N :=
  match idx with
  | [i; t] => of_count N (5 * i + t)
  | [i; t; j] => of_count N (30 * i + 6 * t + j)
  | _ => zero N
  end.

Definition margin_batch : TrajectoryNp N :=
  {| observations := {| shape := [4; 5; 6]; item := entry_number |};
     actions := {| shape := [4; 5]; item := entry_number |};
     rewards := {| shape := [4; 5]; item := entry_number |};
     returns := {| shape := [4; 5]; item := entry_number |};
     dones := full [4; 5] (zero N);
     mask := full [4; 5] (of_count N 1) |}.

(** A batch whose actions and mask disagree on the sequence length. *)
Definition mismatched_batch : TrajectoryNp N :=
  {| observations := full [2; 3; 4] (zero N);
     actions := full [2; 3] (zero N);
     rewards := full [2; 3] (zero N);
     returns := full [2; 3] (zero N);
     dones := full [2; 3] (zero N);
     mask := full [2; 4] (of_count N 1) |}.

(** A batch whose observations have a single axis. *)
Definition flat_batch : TrajectoryNp N :=
  batch_with (full [3] (zero N)) (full [3] (of_count N 1)).

End Embedding.

Notation "x <- c ;; k" := (bind c (fun x => k))
  (at level 61, c at next level, right associativity).
Notation "c ;;; k" := (bind c (fun _ => k))
  (at level 61, right associativity).

(** [carries e s]: the shape [s] is among the arguments of the error. *)
Definition carries (e : exception) (s : list nat) : Prop :=
  match e with
  | AssertionError args => In s args
  | ValueError | IndexError => False
  end.

(** The default of [advantage_normalization_epsilon], 1e-5: as a real
    number, and as the float64 nearest to it. *)
Definition default_epsilon : num exact := (1 / 100000)%R.
Definition default_epsilon64 : num binary64 := 0x1.4f8b588e368f1p-17%float.

(** A policy distribution over four actions with uniform logits: its
    entropy is [ln 4] at every timestep. *)
Definition uniform4 : Distribution exact :=
  {| entropy := fun policy_inputs =>
       full (N := exact) (firstn 2 (shape policy_inputs)) (ln 4) |}.

(** ** Means and standard deviations of lists of reals *)

Definition Rsum (l : list R) : R := fold_right Rplus 0%R l.

Definition Rmean (l : list R) : R := (Rsum l / INR (length l))%R.

Definition Rpstd (l : list R) : R :=
  sqrt (Rmean (map (fun x => Rsqr (x - Rmean l)) l)).

(** "Subtract the scalar mean of all advantage entries and divide by the
    population standard deviation of all entries plus epsilon", on the
    flattened entries. *)
Definition normalize (eps : R) (l : list R) : list R :=
  map (fun x => ((x - Rmean l) / (Rpstd l + eps))%R) l.


(** "The arithmetic mean over all entries": the entries are added axis by
    axis, [sum_{i < d} g i] for each axis of length [d], and the total is
    divided by the number of entries, the product of the axis lengths. *)
Fixpoint Rsum_below (d : nat) (g : nat -> R) : R :=
  match d with
  | 0 => 0%R
  | S d' => (Rsum_below d' g + g d')%R
  end.

Fixpoint total (s : list nat) (f : list nat -> R) : R :=
  match s with
  | [] => f []
  | d :: s' => Rsum_below d (fun i => total s' (fun idx => f (i :: idx)))
  end.

Definition size (s : list nat) : nat := fold_right Nat.mul 1 s.

Definition arithmetic_mean (a : ndarray exact) : R :=
  (total (shape a) (item a) / INR (size (shape a)))%R.
(** ** Concrete float64 batches *)

(** 0.1, as the float64 nearest to it. *)
Definition tenth64 : num binary64 := 0x1.999999999999ap-4%float.

(** A large finite number, 2^600. *)
Definition huge64 : num binary64 := 0x1p600%float.

Definition a2c64 (margin : nat) (normalization : bool)
  : PolicyTrainTask binary64 :=
  a2c_task margin normalization default_epsilon64.

(** One trajectory of two steps, returns 5 and 7, the second step masked. *)
Definition masked_batch64 : TrajectoryNp binary64 :=
  batch_with (row2 (N := binary64) 5%float 7%float)
             (row2 (N := binary64) 1%float 0%float).

(** One trajectory of two steps, returns -1 and 1. *)
Definition opposite_batch64 : TrajectoryNp binary64 :=
  batch_with (row2 (N := binary64) (-1)%float 1%float)
             (row2 (N := binary64) 1%float 1%float).

(** One trajectory of two steps, returns -1e-5 and 1e-5. *)
Definition low_variance_batch64 : TrajectoryNp binary64 :=
  batch_with (row2 (N := binary64) (PrimFloat.opp default_epsilon64)
                default_epsilon64)
             (row2 (N := binary64) 1%float 1%float).

(** One trajectory of three steps, every return 0.1. *)
Definition constant_batch64 : TrajectoryNp binary64 :=
  batch_with (full (N := binary64) [1; 3] tenth64)
             (full (N := binary64) [1; 3] 1%float).

(** One trajectory of two steps, returns 2^600, the second step masked. *)
Definition overflow_batch64 : TrajectoryNp binary64 :=
  batch_with (row2 (N := binary64) huge64 huge64)
             (row2 (N := binary64) 1%float 0%float).

(** ** Concrete batches of real numbers *)

(** One trajectory of two steps, returns -1e-5 and 1e-5. *)
Definition low_variance_batch : TrajectoryNp exact :=
  batch_with (row2 (N := exact) (- default_epsilon)%R default_epsilon)
             (row2 (N := exact) 1%R 1%R).

(** One trajectory of a single step. *)
Definition one_step_batch : TrajectoryNp exact :=
  batch_with (full (N := exact) [1; 1] 7%R) (full (N := exact) [1; 1] 1%R).

(** ** Further tasks for the examples *)

Section MoreExamples.

Context {N : arithmetic}.

(** A [value_fn] that returns one value for each trajectory, shape
    [(batch_size,)], instead of one for each timestep. *)
Definition value_per_trajectory (tb : TrajectoryNp N) : ndarray N :=
  full (firstn 1 (shape (rewards tb))) (zero N).

Definition flat_values_task (eps : num N) : PolicyTrainTask N :=
  {| value_fn := value_per_trajectory;
     advantage_estimator := monte_carlo 0;
     weight_fn := fun a => a;
     advantage_normalization := true;
     advantage_normalization_epsilon := eps |}.

(** An estimator that returns one advantage for each trajectory, shape
    [(batch_size,)]: a new array. *)
Definition advantage_per_trajectory
    (rewards_ returns_ dones_ values_ : ndarray N) : estimate N :=
  New {| shape := firstn 1 (shape returns_);
         item := fun idx =>
           sub N (item returns_ (idx ++ [0])) (item values_ (idx ++ [0])) |}.

Definition flat_advantages_task (eps : num N) : PolicyTrainTask N :=
  {| value_fn := zero_baseline;
     advantage_estimator := advantage_per_trajectory;
     weight_fn := fun a => a;
     advantage_normalization := true;
     advantage_normalization_epsilon := eps |}.

(** A [weight_fn] that reduces over time, to shape [(batch_size,)], on an
    estimator that hands back [returns] itself. *)
Definition first_column (a : ndarray N) : ndarray N :=
  {| shape := firstn 1 (shape a);
     item := fun idx => item a (idx ++ [0]) |}.

Definition reduced_weights_task (eps : num N) : PolicyTrainTask N :=
  {| value_fn := zero_baseline;
     advantage_estimator := returns_itself;
     weight_fn := first_column;
     advantage_normalization := true;
     advantage_normalization_epsilon := eps |}.

(** The batch [tb] with other observations, actions and mask. *)
Definition with_inputs (tb : TrajectoryNp N)
    (observations_ actions_ mask_ : ndarray N) : TrajectoryNp N :=
  {| observations := observations_;
     actions := actions_;
     rewards := rewards tb;
     returns := returns tb;
     dones := dones tb;
     mask := mask_ |}.

(** A batch whose actions and mask disagree on the sequence length, and
    whose observations have a single axis. *)
Definition flat_mismatched_batch : TrajectoryNp N :=
  {| observations := full [3] (zero N);
     actions := full [2; 3] (zero N);
     rewards := full [2; 3] (zero N);
     returns := full [2; 3] (zero N);
     dones := full [2; 3] (zero N);
     mask := full [2; 4] (of_count N 1) |}.

End MoreExamples.

(** Two trajectories of three steps, returns 0, 1, 2 and 5, 6, 7. *)
Definition grid_batch64 : TrajectoryNp binary64 :=
  batch_with {| shape := [2; 3]; item := entry_number (N := binary64) |}
             (full (N := binary64) [2; 3] 1%float).

(** A mask of shape [(4, 5)] that is 1 on the first three timesteps and 0
    on the padding after them. *)
Definition padded_mask64 : ndarray binary64 :=
  @Array binary64 [4; 5]
    (fun idx =>
       match idx with
       | [_; t] => if t <? 3 then 1%float else 0%float
       | _ => 0%float
       end).

(** One trajectory of two steps, returns 1 - 1e-5 and 1 + 1e-5: the returns
    of [low_variance_batch] shifted by 1. *)
Definition shifted_batch : TrajectoryNp exact :=
  batch_with (row2 (N := exact) (- default_epsilon + 1)%R
                (default_epsilon + 1)%R)
             (row2 (N := exact) 1%R 1%R).

(** [ln 4] in float64, 1.3862943611198906. *)
Definition ln4_64 : num binary64 := 0x1.62e42fefa39efp+0%float.

(** The distribution [uniform4], in float64. *)
Definition uniform4_64 : Distribution binary64 :=
  {| entropy := fun policy_inputs =>
       full (N := binary64) (firstn 2 (shape policy_inputs)) ln4_64 |}.

(** ** [PolicyTrainTask.__init__] *)


(** The returns of [low_variance_batch], doubled. *)
Definition doubled_batch : TrajectoryNp exact :=
  batch_with (row2 (N := exact) (2 * - default_epsilon)%R
                (2 * default_epsilon)%R)
             (row2 (N := exact) 1%R 1%R).

(** ** Basic facts *)

Lemma shape_eqb_eq (s1 s2 : list nat) : shape_eqb s1 s2 = true <-> s1 = s2.
Proof.
  revert s2; induction s1 as [|d1 r1 IH]; intros [|d2 r2]; simpl;
    try (split; [discriminate | congruence]); try tauto.
  rewrite andb_true_iff, Nat.eqb_eq, IH.
  split; [intros [-> ->]; reflexivity | intros [= -> ->]; auto].
Qed.

Lemma shape_eqb_refl (s : list nat) : shape_eqb s s = true.
Proof. apply shape_eqb_eq; reflexivity. Qed.

Lemma shape_eqb_neq (s1 s2 : list nat) : shape_eqb s1 s2 = false <-> s1 <> s2.
Proof.
  rewrite <- shape_eqb_eq. destruct (shape_eqb s1 s2); split; congruence.
Qed.

Lemma firstn_2_inv (s : list nat) (b t : nat) :
  firstn 2 s = [b; t] <-> exists rest, s = b :: t :: rest.
Proof.
  split.
  - destruct s as [|b' [|t' rest]]; simpl; try discriminate.
    intros [= -> ->]; eauto.
  - intros [rest ->]; reflexivity.
Qed.

Lemma name_eqb_eq (n1 n2 : name) : name_eqb n1 n2 = true <-> n1 = n2.
Proof. destruct n1, n2; simpl; split; congruence. Qed.

Lemma update_eq {N} (m : memory N) (n : name) (a : ndarray N) :
  update m n a n = a.
Proof. unfold update. destruct n; reflexivity. Qed.

Lemma update_neq {N} (m : memory N) (n n' : name) (a : ndarray N) :
  n' <> n -> update m n a n' = m n'.
Proof.
  intros H. unfold update. destruct (name_eqb n' n) eqn:E; [|reflexivity].
  apply name_eqb_eq in E; contradiction.
Qed.

(** ** Indices, ranges and broadcasting *)

Lemma in_indices (s idx : list nat) :
  In idx (indices s) <-> in_range idx s = true.
Proof.
  revert idx; induction s as [|d s IH]; intros idx; simpl.
  - destruct idx; simpl; split; intros H; auto; try discriminate.
    destruct H as [H|[]]; discriminate.
  - rewrite in_flat_map. split.
    + intros (i & Hi & Hin). apply in_map_iff in Hin.
      destruct Hin as (idx' & <- & Hin'). simpl.
      apply in_seq in Hi. apply andb_true_iff. split.
      * apply Nat.ltb_lt. lia.
      * apply IH, Hin'.
    + destruct idx as [|i idx']; [discriminate|].
      intros H. apply andb_true_iff in H. destruct H as [Hi Hr].
      apply Nat.ltb_lt in Hi. exists i. split.
      * apply in_seq. lia.
      * apply in_map, IH, Hr.
Qed.

Lemma in_range_length (idx s : list nat) :
  in_range idx s = true -> length idx = length s.
Proof.
  revert s; induction idx as [|i idx IH]; intros [|d s]; simpl;
    try discriminate; auto.
  intros H. apply andb_true_iff in H. destruct H as [_ H].
  f_equal. apply IH, H.
Qed.

Lemma in_range_2 (i t B k : nat) :
  in_range [i; t] [B; k] = true <-> i < B /\ t < k.
Proof.
  simpl. rewrite !andb_true_iff, !Nat.ltb_lt. tauto.
Qed.

Lemma clamp_in_range (s idx : list nat) :
  in_range idx s = true -> clamp s idx = idx.
Proof.
  revert idx; induction s as [|d s IH]; intros [|i idx]; simpl;
    try discriminate; auto.
  intros H. apply andb_true_iff in H. destruct H as [Hi Hr].
  apply Nat.ltb_lt in Hi. rewrite (IH _ Hr).
  destruct (d =? 1) eqn:E; [|reflexivity].
  apply Nat.eqb_eq in E. f_equal. lia.
Qed.

(** An operand that already has the shape of the result is read at the
    index of the result. *)
Lemma bidx_in_range (s idx : list nat) :
  in_range idx s = true -> bidx s idx = idx.
Proof.
  intros H. unfold bidx.
  rewrite (in_range_length _ _ H), Nat.sub_diag. simpl.
  apply clamp_in_range, H.
Qed.

Lemma broadcast_rev_same (s : list nat) : broadcast_rev s s = Some s.
Proof.
  induction s as [|d s IH]; simpl; [reflexivity|].
  rewrite IH, Nat.eqb_refl. reflexivity.
Qed.

Lemma broadcast_shapes_same (s : list nat) : broadcast_shapes s s = Some s.
Proof.
  unfold broadcast_shapes. rewrite broadcast_rev_same. simpl.
  rewrite rev_involutive. reflexivity.
Qed.

(** A scalar (shape [()]) broadcasts against every shape. *)
Lemma broadcast_shapes_scalar (s : list nat) : broadcast_shapes [] s = Some s.
Proof.
  unfold broadcast_shapes. simpl. rewrite rev_involutive. reflexivity.
Qed.

(** Reading a view after an in-place update through the same view. *)
Lemma ravel_inplace {N} (m : memory N) (r : ref) (f : num N -> num N) :
  ravel (deref (update m (base r) (inplace (vshape r) f (m (base r)))) r)
  = map f (ravel (deref m r)).
Proof.
  unfold ravel, deref. simpl. rewrite update_eq, map_map.
  apply map_ext_in. intros idx Hin. simpl.
  apply in_indices in Hin. rewrite Hin. reflexivity.
Qed.

Lemma item_inplace {N} (m : memory N) (r : ref) (f : num N -> num N)
    (idx : list nat) :
  in_range idx (vshape r) = true ->
  item (update m (base r) (inplace (vshape r) f (m (base r))) (base r)) idx
  = f (item (m (base r)) idx).
Proof.
  intros H. rewrite update_eq. simpl. rewrite H. reflexivity.
Qed.

Lemma ravel_nonempty {N} (a : ndarray N) (idx : list nat) :
  in_range idx (shape a) = true -> ravel a <> [].
Proof.
  intros H E. apply in_indices in H.
  apply (in_map (item a)) in H. fold (ravel a) in H. rewrite E in H.
  exact H.
Qed.


(** The length of the list is fuel enough for [pairwise_sum]: with at least
    that much, the result does not depend on the fuel. *)
Lemma pairwise_sum_fuel {N} (f1 f2 : nat) (l : list (num N)) :
  length l <= 128 + f1 -> length l <= 128 + f2 ->
  pairwise_sum f1 l = pairwise_sum f2 l.
Proof.
  revert f2 l. induction f1 as [|f1 IH]; intros [|f2] l H1 H2;
    cbn [pairwise_sum];
    destruct (length l <? 8); try reflexivity;
    destruct (length l <=? 128) eqn:E; try reflexivity;
    apply Nat.leb_gt in E; try lia.
  pose proof (Nat.div_mod_eq (length l) 2) as Hd.
  pose proof (Nat.mod_upper_bound (length l) 2) as Hm.
  pose proof (Nat.mod_upper_bound (length l / 2) 8) as Hm8.
  pose proof (Nat.Div0.mod_le (length l / 2) 8) as Hle.
  f_equal; apply IH;
    rewrite ?length_firstn, ?length_skipn; lia.
Qed.
(** ** The steps of [policy_batch] *)

Section Steps.

Context {N : arithmetic}.
Variable self : PolicyTrainTask N.
Variable tb : TrajectoryNp N.

Lemma bind_run {A B} (c : M N A) (k : A -> M N B) s a s1 :
  c s = (Ok a, s1) -> bind c k s = k a s1.
Proof. unfold bind. intros ->. reflexivity. Qed.

Lemma bind_fail {A B} (c : M N A) (k : A -> M N B) s e s1 :
  c s = (Raise e, s1) -> bind c k s = (Raise e, s1).
Proof. unfold bind. intros ->. reflexivity. Qed.

Lemma call_value_fn_run l :
  call_value_fn self (State (load tb) l)
  = (Ok (View Values (shape (value_fn self tb))),
     State (mem_values self tb) (Call_value_fn :: l)).
Proof. reflexivity. Qed.

Lemma call_advantage_estimator_run l :
  call_advantage_estimator self (View Values (shape (value_fn self tb)))
    (State (mem_values self tb) l)
  = (Ok (advantages_ref self tb),
     State (mem_estimate self tb)
       (Call_advantage_estimator (raw_advantages self tb) :: l)).
Proof.
  unfold call_advantage_estimator, raw_advantages, advantages_ref,
    mem_estimate, bind, get_mem, read, emit, ret, store.
  cbn.
  change (advantage_estimator self (rewards tb) (returns tb) (dones tb) _)
    with (the_estimate self tb).
  destruct (the_estimate self tb); reflexivity.
Qed.

Lemma normalize_advantages_run l :
  (if advantage_normalization self
   then normalize_advantages self (advantages_ref self tb)
   else ret tt) (State (mem_estimate self tb) l)
  = (Ok tt,
     State (mem_normalized self tb)
       ((if advantage_normalization self
         then [Arith_idiv; Arith_std; Arith_isub; Arith_mean]
         else []) ++ l)).
Proof.
  unfold mem_normalized.
  destruct (advantage_normalization self); reflexivity.
Qed.

Lemma call_weight_fn_run l :
  call_weight_fn self (advantages_ref self tb)
    (State (mem_normalized self tb) l)
  = (Ok (weight_fn self (advantages_array self tb)),
     State (mem_normalized self tb)
       (Call_weight_fn (advantages_array self tb) :: l)).
Proof. reflexivity. Qed.

End Steps.

Ltac step_by tac := erewrite bind_run; [| tac]; cbv beta iota.
Ltac step := step_by reflexivity.
Ltac stop_by tac := erewrite bind_fail; [| tac].

(** The complete case analysis of a call. *)
Lemma build_outcome {N} (self : PolicyTrainTask N) (tb : TrajectoryNp N) :
  outcome self tb (build self tb).
Proof.
  unfold build, policy_batch.
  do 3 step.
  cbn [vshape mem enter].
  change (load tb Observations) with (observations tb).
  change (load tb Actions) with (actions tb).
  change (load tb Mask) with (mask tb).
  unfold unpack2.
  destruct (firstn 2 (shape (observations tb))) as [|B [|T [|? ?]]] eqn:Hobs;
    try (apply fails_unpack; intros ? ?; rewrite Hobs; discriminate).
  step.
  destruct (shape_eqb (firstn 2 (shape (actions tb))) [B; T]) eqn:Hact;
    [ apply shape_eqb_eq in Hact
    | apply shape_eqb_neq in Hact; eapply fails_actions; eassumption ].
  step.
  destruct (shape_eqb (shape (mask tb)) [B; T]) eqn:Hmask;
    [ apply shape_eqb_eq in Hmask
    | apply shape_eqb_neq in Hmask; eapply fails_mask; eassumption ].
  assert (Hbatch : batch_checked tb B T) by (repeat split; assumption).
  step.
  step_by ltac:(apply call_value_fn_run).
  cbn [vshape].
  destruct (shape_eqb (shape (value_fn self tb)) [B; T]) eqn:Hval;
    [ apply shape_eqb_eq in Hval
    | apply shape_eqb_neq in Hval; eapply fails_values; eassumption ].
  assert (Hvalues : values_checked self tb B T) by (split; assumption).
  step.
  step_by ltac:(apply call_advantage_estimator_run).
  unfold tuple_get.
  destruct (nth_error (vshape (advantages_ref self tb)) 1) as [k|] eqn:Hnth;
    [| eapply fails_index; eassumption ].
  step.
  destruct (k <=? T) eqn:Hk;
    [ apply Nat.leb_le in Hk
    | apply Nat.leb_gt in Hk; eapply fails_margin; eassumption ].
  step.
  destruct (shape_eqb (vshape (advantages_ref self tb)) [B; k]) eqn:Hadv;
    [ apply shape_eqb_eq in Hadv
    | apply shape_eqb_neq in Hadv; eapply fails_advantages; eassumption ].
  assert (Hchecked : advantages_checked self tb B T k)
    by (repeat split; assumption).
  step.
  step_by ltac:(apply normalize_advantages_run).
  apply firstn_2_inv in Hobs as Hobs'; destruct Hobs' as [ro Ho].
  apply firstn_2_inv in Hact; destruct Hact as [ra Ha].
  unfold getitem_cols; cbn [vshape base].
  rewrite Ho, Ha, Hmask. unfold slice_shape.
  rewrite Nat.min_l by exact Hk.
  do 3 step.
  step_by ltac:(apply call_weight_fn_run).
  step.
  unfold multiply. cbn [shape deref vshape base].
  destruct (broadcast_shapes (shape (weight_fn self (advantages_array self tb)))
              [B; k]) as [s|] eqn:Hbc;
    [| stop_by reflexivity; eapply fails_broadcast; eassumption ].
  do 2 step. cbn [vshape shape].
  destruct (shape_eqb s [B; k]) eqn:Hs;
    [ apply shape_eqb_eq in Hs; subst s
    | apply shape_eqb_neq in Hs; stop_by reflexivity;
      eapply fails_weights; eassumption ].
  step.
  apply returns_triple with (T := T).
  constructor; assumption.
Qed.

(** ** Means and standard deviations of lists of reals *)

(** States an equation between entries of the arithmetic [exact] as an
    equation between real numbers. *)
Ltac real_goal :=
  match goal with
  | |- @eq _ ?a ?b =>
    let a' := eval cbv [num zero add sub mul div exact] in a in
    let b' := eval cbv [num zero add sub mul div exact] in b in
    change (@eq R a' b')
  end.

Section Reals.

Local Open Scope R_scope.

Lemma Rsum_map_sub (c : R) (l : list R) :
  Rsum (map (fun x => x - c) l) = Rsum l - INR (length l) * c.
Proof.
  induction l as [|x l IH]; [simpl; lra|].
  change (Rsum (map (fun x => x - c) (x :: l)))
    with ((x - c) + Rsum (map (fun x => x - c) l)).
  change (Rsum (x :: l)) with (x + Rsum l).
  rewrite IH. change (length (x :: l)) with (S (length l)).
  rewrite S_INR. lra.
Qed.

Lemma Rsum_map_div (c : R) (l : list R) :
  Rsum (map (fun x => x / c) l) = Rsum l / c.
Proof.
  induction l as [|x l IH]; simpl; [unfold Rdiv; lra|].
  rewrite IH. unfold Rdiv. lra.
Qed.

Lemma INR_length_pos {A} (l : list A) : l <> [] -> 0 < INR (length l).
Proof.
  destruct l as [|x l]; [congruence|]. intros _.
  apply lt_0_INR. simpl. lia.
Qed.

Lemma mean_nil : Rmean [] = 0.
Proof. unfold Rmean. simpl. unfold Rdiv. lra. Qed.

Lemma mean_map_sub (c : R) (l : list R) :
  l <> [] -> Rmean (map (fun x => x - c) l) = Rmean l - c.
Proof.
  intros Hl. unfold Rmean. rewrite Rsum_map_sub, length_map.
  pose proof (INR_length_pos Hl). field. lra.
Qed.

Lemma mean_map_div (c : R) (l : list R) :
  Rmean (map (fun x => x / c) l) = Rmean l / c.
Proof.
  unfold Rmean. rewrite Rsum_map_div, length_map. unfold Rdiv. ring.
Qed.

(** Subtracting the mean centres the entries. *)
Lemma mean_centred (l : list R) : Rmean (map (fun x => x - Rmean l) l) = 0.
Proof.
  destruct l as [|x l]; [apply mean_nil|].
  rewrite mean_map_sub by discriminate. lra.
Qed.

Lemma pstd_nonneg (l : list R) : 0 <= Rpstd l.
Proof. apply sqrt_pos. Qed.

(** The standard deviation does not see a shift. *)
Lemma pstd_map_sub (c : R) (l : list R) :
  Rpstd (map (fun x => x - c) l) = Rpstd l.
Proof.
  destruct l as [|x l]; [reflexivity|].
  unfold Rpstd. rewrite mean_map_sub by discriminate.
  rewrite map_map. f_equal. f_equal.
  apply map_ext. intros y. f_equal. lra.
Qed.

(** Dividing by a positive number divides the standard deviation. *)
Lemma pstd_map_div (c : R) (l : list R) :
  0 < c -> Rpstd (map (fun x => x / c) l) = Rpstd l / c.
Proof.
  intros Hc. unfold Rpstd. rewrite mean_map_div, map_map.
  rewrite (map_ext (fun x => Rsqr (x / c - Rmean l / c))
                   (fun x => Rsqr (x - Rmean l) / Rsqr c)).
  2:{ intros y. unfold Rsqr. field. lra. }
  rewrite <- (map_map (fun x => Rsqr (x - Rmean l)) (fun y => y / Rsqr c)).
  rewrite mean_map_div.
  rewrite sqrt_div_alt by (apply Rsqr_pos_lt; lra).
  rewrite (sqrt_Rsqr c) by lra. reflexivity.
Qed.

(** A constant list has its constant as mean. *)
Lemma Rsum_constant (c : R) (l : list R) :
  Forall (fun x => x = c) l -> Rsum l = INR (length l) * c.
Proof.
  induction 1 as [|x l Hx _ IH]; [simpl; lra|].
  change (Rsum (x :: l)) with (x + Rsum l).
  change (length (x :: l)) with (S (length l)).
  rewrite IH, S_INR, Hx. lra.
Qed.

Lemma mean_constant (c : R) (l : list R) :
  l <> [] -> Forall (fun x => x = c) l -> Rmean l = c.
Proof.
  intros Hl H. unfold Rmean. rewrite (Rsum_constant H).
  pose proof (INR_length_pos Hl). field. lra.
Qed.

Lemma mean_pair (x y : R) : Rmean [x; y] = (x + y) / 2.
Proof. unfold Rmean. simpl. field. Qed.

Lemma pstd_pair_opposite (c : R) : 0 <= c -> Rpstd [- c; c] = c.
Proof.
  intros Hc. unfold Rpstd. cbn [map]. rewrite !mean_pair.
  replace ((Rsqr (- c - (- c + c) / 2) + Rsqr (c - (- c + c) / 2)) / 2)
    with (Rsqr c) by (unfold Rsqr; field).
  apply sqrt_Rsqr, Hc.
Qed.

Lemma pstd_constant (c : R) (l : list R) :
  Forall (fun x => x = c) l -> Rpstd l = 0.
Proof.
  intros H. destruct l as [|x l].
  - unfold Rpstd. simpl. rewrite mean_nil. apply sqrt_0.
  - assert (Hm : Rmean (x :: l) = c)
      by (apply mean_constant; [discriminate | exact H]).
    unfold Rpstd. rewrite Hm.
    rewrite (@mean_constant 0); [apply sqrt_0 | discriminate |].
    apply Forall_forall. intros y Hy. apply in_map_iff in Hy.
    destruct Hy as (z & <- & Hz).
    rewrite Forall_forall in H. rewrite (H z Hz). unfold Rsqr. ring.
Qed.

(** *** Normalisation of a list, in the words of the specification:
    subtract the mean of all entries, divide by their population standard
    deviation plus epsilon. *)

Lemma mean_normalize (eps : R) (l : list R) : Rmean (normalize eps l) = 0.
Proof.
  unfold normalize.
  rewrite <- (map_map (fun x => x - Rmean l) (fun y => y / (Rpstd l + eps))).
  rewrite mean_map_div, mean_centred. unfold Rdiv. lra.
Qed.

Lemma pstd_normalize (eps : R) (l : list R) :
  0 < Rpstd l + eps ->
  Rpstd (normalize eps l) = Rpstd l / (Rpstd l + eps).
Proof.
  intros H. unfold normalize.
  rewrite <- (map_map (fun x => x - Rmean l) (fun y => y / (Rpstd l + eps))).
  rewrite pstd_map_div by exact H.
  rewrite pstd_map_sub. reflexivity.
Qed.



(** The standard deviation after normalisation is below 1 by
    [eps / (sigma + eps)]. *)
Lemma normalized_std_bounds (sigma eps : R) :
  0 <= sigma -> 0 < eps ->
  0 <= sigma / (sigma + eps) < 1 /\
  1 - sigma / (sigma + eps) = eps / (sigma + eps) /\
  (1 <= sigma + eps -> Rabs (sigma / (sigma + eps) - 1) <= eps).
Proof.
  intros Hs He.
  assert (Hd : 0 < sigma + eps) by lra.
  assert (Hi : 0 < / (sigma + eps)) by (apply Rinv_0_lt_compat; exact Hd).
  assert (E : 1 - sigma / (sigma + eps) = eps / (sigma + eps))
    by (field; lra).
  assert (Hq : 0 < eps / (sigma + eps))
    by (unfold Rdiv; apply Rmult_lt_0_compat; assumption).
  split; [|split].
  - split.
    + unfold Rdiv. apply Rmult_le_pos; lra.
    + lra.
  - exact E.
  - intros H1.
    replace (sigma / (sigma + eps) - 1) with (- (eps / (sigma + eps))) by lra.
    rewrite Rabs_Ropp, Rabs_pos_eq by lra.
    apply Rmult_le_reg_r with (r := sigma + eps); [exact Hd|].
    unfold Rdiv. rewrite Rmult_assoc, Rinv_l by lra. nra.
Qed.


(** *** The arithmetic [exact] computes these *)

Lemma fold_add_exact (l : list R) (x : R) :
  fold_left (@add exact) l x = x + Rsum l.
Proof.
  revert x. induction l as [|y l IH]; intros x; cbn [fold_left].
  - simpl. lra.
  - rewrite IH. change (Rsum (y :: l)) with (y + Rsum l).
    change (add exact x y) with (x + y). lra.
Qed.

Lemma Rsum_app (l1 l2 : list R) : Rsum (l1 ++ l2) = Rsum l1 + Rsum l2.
Proof.
  induction l1 as [|x l1 IH]; simpl; [lra|].
  fold (Rsum (l1 ++ l2)). fold (Rsum l1). rewrite IH. lra.
Qed.

Lemma Rsum_split (k : nat) (l : list R) :
  Rsum l = Rsum (firstn k l) + Rsum (skipn k l).
Proof. rewrite <- Rsum_app, firstn_skipn. reflexivity. Qed.

Lemma add_lanes_exact (r block : list R) :
  length r = length block ->
  length (add_lanes (N := exact) r block) = length r /\
  Rsum (add_lanes (N := exact) r block) = Rsum r + Rsum block.
Proof.
  revert block. induction r as [|x r IH]; intros [|y block] Hlen;
    try discriminate Hlen.
  - split; [reflexivity | simpl; lra].
  - injection Hlen as Hlen. destruct (IH block Hlen) as [Hl Hs].
    split.
    + cbn [add_lanes combine map length]. f_equal. exact Hl.
    + change (Rsum (add_lanes (N := exact) (x :: r) (y :: block)))
        with ((x + y) + Rsum (add_lanes (N := exact) r block)).
      change (Rsum (x :: r)) with (x + Rsum r).
      change (Rsum (y :: block)) with (y + Rsum block).
      rewrite Hs. lra.
Qed.

Lemma accumulate_exact (blocks : nat) (r rest : list R) :
  length r = 8%nat ->
  (8 * blocks <= length rest)%nat ->
  Rsum (fst (accumulate (N := exact) blocks r rest))
  + Rsum (snd (accumulate (N := exact) blocks r rest))
  = Rsum r + Rsum rest.
Proof.
  revert r rest. induction blocks as [|b IH]; intros r rest Hr Hrest.
  - reflexivity.
  - cbn [accumulate].
    assert (Hf : length (firstn 8 rest) = 8%nat)
      by (apply firstn_length_le; lia).
    destruct (@add_lanes_exact r (firstn 8 rest)) as [Hl Hs];
      [congruence|].
    rewrite IH.
    + apply eq_trans
        with (Rsum r + Rsum (firstn 8 rest) + Rsum (skipn 8 rest)).
      * f_equal. exact Hs.
      * rewrite (Rsum_split 8 rest). lra.
    + exact (eq_trans Hl Hr).
    + rewrite length_skipn. change (num exact) with R. lia.
Qed.

Lemma add_tree_exact (r : list R) : add_tree (N := exact) r = Rsum r.
Proof.
  destruct r as [|r0 [|r1 [|r2 [|r3 [|r4 [|r5 [|r6 [|r7 [|r8 r]]]]]]]]];
    cbn [add_tree]; try (rewrite fold_add_exact; cbn; lra).
  cbn. lra.
Qed.

Lemma accumulate_pair_exact (blocks : nat) (r rest r' rest' : list R) :
  length r = 8%nat ->
  (8 * blocks <= length rest)%nat ->
  accumulate (N := exact) blocks r rest = (r', rest') ->
  Rsum r' + Rsum rest' = Rsum r + Rsum rest.
Proof.
  intros Hr Hrest E.
  pose proof (accumulate_exact blocks r rest Hr Hrest) as H.
  rewrite E in H. exact H.
Qed.

Lemma block_sum_exact (l : list R) :
  (8 <= length l)%nat -> block_sum (N := exact) l = Rsum l.
Proof.
  intros Hl. unfold block_sum.
  destruct (accumulate _ _ _) as [r rest] eqn:E.
  apply accumulate_pair_exact in E.
  - rewrite fold_add_exact, add_tree_exact, E.
    symmetry. apply Rsum_split.
  - apply firstn_length_le. exact Hl.
  - rewrite length_skipn. change (num exact) with R.
    pose proof (Nat.Div0.mul_div_le (length l) 8). lia.
Qed.

Lemma fold_add_zero_exact (l : list R) :
  fold_left (@add exact) l (zero exact) = Rsum l.
Proof. rewrite fold_add_exact. change (zero exact) with 0. lra. Qed.

Lemma pairwise_sum_exact (fuel : nat) (l : list R) :
  pairwise_sum (N := exact) fuel l = Rsum l.
Proof.
  revert l. induction fuel as [|fuel IH]; intros l; cbn [pairwise_sum];
    (destruct (_ <? 8) eqn:H8; [apply fold_add_zero_exact|]);
    apply Nat.ltb_ge in H8;
    (destruct (_ <=? 128); [apply block_sum_exact; exact H8|]).
  - apply block_sum_exact; exact H8.
  - rewrite !IH. change (add exact) with Rplus. symmetry. apply Rsum_split.
Qed.

(** In exact arithmetic the order of the additions does not matter. *)
Lemma sum_exact (l : list R) : sum (N := exact) l = Rsum l.
Proof.
  unfold sum. rewrite pairwise_sum_exact.
  change (add exact (zero exact) (Rsum l)) with (0 + Rsum l). lra.
Qed.

Lemma mean_exact (l : list R) : mean (N := exact) l = Rmean l.
Proof. unfold mean, Rmean. rewrite sum_exact. reflexivity. Qed.

Lemma pstd_exact (l : list R) : pstd (N := exact) l = Rpstd l.
Proof.
  unfold pstd, Rpstd. rewrite mean_exact, (mean_exact l). reflexivity.
Qed.

Lemma np_mean_exact (a : ndarray exact) : np_mean a = Rmean (ravel a).
Proof. apply mean_exact. Qed.

Lemma np_std_exact (a : ndarray exact) : np_std a = Rpstd (ravel a).
Proof. apply pstd_exact. Qed.

(** In exact arithmetic the code's normalisation, which takes the standard
    deviation of the centred entries, is the specification's. *)
Lemma normalized_exact (eps : R) (l : list R) :
  normalized (N := exact) eps l = normalize eps l.
Proof.
  unfold normalized, normalize.
  rewrite map_map, pstd_exact, (mean_exact l).
  change (fun x : num exact => sub exact x (Rmean l))
    with (fun x : R => x - Rmean l).
  rewrite pstd_map_sub. reflexivity.
Qed.

(** *** The mean of the flattened entries is the arithmetic mean *)

Lemma Rsum_below_ext (d : nat) (g h : nat -> R) :
  (forall i, g i = h i) -> Rsum_below d g = Rsum_below d h.
Proof.
  intros H. induction d as [|d IH]; [reflexivity|].
  cbn [Rsum_below]. rewrite IH, H. reflexivity.
Qed.

Lemma Rsum_flat_map_seq {A} (f : A -> R) (g : nat -> list A) (d : nat) :
  Rsum (map f (flat_map g (seq 0 d)))
  = Rsum_below d (fun i => Rsum (map f (g i))).
Proof.
  induction d as [|d IH]; [reflexivity|].
  rewrite seq_S, flat_map_app, map_app, Rsum_app, IH.
  cbn [Nat.add flat_map Rsum_below]. rewrite app_nil_r. reflexivity.
Qed.

Lemma Rsum_indices (s : list nat) (f : list nat -> R) :
  Rsum (map f (indices s)) = total s f.
Proof.
  revert f. induction s as [|d s IH]; intros f.
  - cbn. lra.
  - cbn [indices total]. rewrite Rsum_flat_map_seq.
    apply Rsum_below_ext. intros i. rewrite map_map. apply IH.
Qed.

Lemma length_flat_map_seq {A} (g : nat -> list A) (m d : nat) :
  (forall i, length (g i) = m) ->
  length (flat_map g (seq 0 d)) = (d * m)%nat.
Proof.
  intros H. induction d as [|d IH]; [reflexivity|].
  rewrite seq_S, flat_map_app, length_app, IH.
  cbn [Nat.add flat_map]. rewrite app_nil_r, H. lia.
Qed.

Lemma length_indices (s : list nat) : length (indices s) = size s.
Proof.
  induction s as [|d s IH]; [reflexivity|].
  cbn [indices size fold_right].
  apply length_flat_map_seq. intros i. rewrite length_map. exact IH.
Qed.

Lemma np_mean_arithmetic_mean (a : ndarray exact) :
  np_mean a = arithmetic_mean a.
Proof.
  rewrite np_mean_exact. unfold Rmean, arithmetic_mean, ravel.
  rewrite Rsum_indices, length_map, length_indices. reflexivity.
Qed.

Lemma ravel_constant (a : ndarray exact) (c : R) :
  (forall idx, in_range idx (shape a) = true -> item a idx = c) ->
  Forall (fun x => x = c) (ravel a).
Proof.
  intros H. apply Forall_forall. intros x Hx. unfold ravel in Hx.
  apply in_map_iff in Hx. destruct Hx as (idx & <- & Hin).
  apply H, in_indices, Hin.
Qed.

End Reals.

(** ** The stages of a run *)

Section StageFacts.

Context {N : arithmetic}.
Variable self : PolicyTrainTask N.
Variable tb : TrajectoryNp N.

Let eps := advantage_normalization_epsilon self.

(** The advantages array lives in [Estimate] or in a cell the estimator
    was given; never in [Observations], [Actions] or [Mask]. *)
Lemma advantages_base :
  base (advantages_ref self tb) = Estimate \/
  exists x, base (advantages_ref self tb) = arg_cell x.
Proof.
  unfold advantages_ref, estimate_ref.
  destruct (the_estimate self tb) as [a|x k]; cbn; eauto.
Qed.

Lemma mem_estimate_frame (n : name) :
  n <> Values -> n <> Estimate -> mem_estimate self tb n = load tb n.
Proof.
  intros H1 H2. unfold mem_estimate, mem_values.
  destruct (the_estimate self tb); rewrite ?update_neq; auto.
Qed.

Lemma mem_normalized_other (n : name) :
  n <> base (advantages_ref self tb) ->
  mem_normalized self tb n = mem_estimate self tb n.
Proof.
  intros H. unfold mem_normalized, scaled, centred.
  destruct (advantage_normalization self); rewrite ?update_neq; auto.
Qed.

Lemma mem_normalized_off :
  advantage_normalization self = false ->
  mem_normalized self tb = mem_estimate self tb.
Proof. unfold mem_normalized. intros ->. reflexivity. Qed.

(** Observations, actions and mask are never written. *)
Lemma mem_normalized_frame (n : name) :
  n = Observations \/ n = Actions \/ n = Mask ->
  mem_normalized self tb n = load tb n.
Proof.
  intros Hn.
  rewrite mem_normalized_other.
  - apply mem_estimate_frame; destruct Hn as [->|[->| ->]]; discriminate.
  - destruct advantages_base as [E|[[] E]]; rewrite E;
      destruct Hn as [->|[->| ->]]; discriminate.
Qed.

Lemma mem_final_frame B k (n : name) :
  n = Observations \/ n = Actions \/ n = Mask ->
  mem_final self tb B k n = load tb n.
Proof.
  intros Hn. unfold mem_final. rewrite update_neq.
  - apply mem_normalized_frame, Hn.
  - destruct Hn as [->|[->| ->]]; discriminate.
Qed.

Lemma shape_raw_advantages :
  shape (raw_advantages self tb) = vshape (advantages_ref self tb).
Proof. reflexivity. Qed.

Lemma shape_advantages_array :
  shape (advantages_array self tb) = vshape (advantages_ref self tb).
Proof. reflexivity. Qed.

(** An estimator that returns a new array: the advantages are that array. *)
Lemma raw_advantages_new a :
  advantage_estimator self (rewards tb) (returns tb) (dones tb)
    (value_fn self tb) = New a ->
  raw_advantages self tb = a.
Proof.
  intros H. unfold raw_advantages, advantages_ref, mem_estimate, the_estimate.
  rewrite H. reflexivity.
Qed.

Lemma ravel_centred (m : memory N) :
  ravel (deref (centred self tb m) (advantages_ref self tb))
  = map (fun v => sub N v (np_mean (deref m (advantages_ref self tb))))
      (ravel (deref m (advantages_ref self tb))).
Proof. unfold centred. apply ravel_inplace. Qed.

Lemma ravel_scaled (m : memory N) :
  ravel (deref (scaled self tb m) (advantages_ref self tb))
  = map (fun v =>
           div N v (add N (np_std (deref m (advantages_ref self tb))) eps))
      (ravel (deref m (advantages_ref self tb))).
Proof. unfold scaled. apply ravel_inplace. Qed.

(** Lines 134-137, on the flattened advantages, in every arithmetic. *)
Lemma ravel_advantages_array_on :
  advantage_normalization self = true ->
  ravel (advantages_array self tb)
  = normalized eps (ravel (raw_advantages self tb)).
Proof.
  intros Hn. unfold advantages_array, mem_normalized. rewrite Hn.
  rewrite ravel_scaled. unfold np_std. rewrite ravel_centred.
  reflexivity.
Qed.

(** With normalisation off [weight_fn] is applied to the estimator's
    advantages as they are. *)
Lemma advantages_array_off :
  advantage_normalization self = false ->
  advantages_array self tb = raw_advantages self tb.
Proof.
  intros Hn. unfold advantages_array, raw_advantages.
  rewrite mem_normalized_off by exact Hn. reflexivity.
Qed.

(** Lines 134-137, entry by entry. *)
Lemma item_advantages_array_on (idx : list nat) :
  advantage_normalization self = true ->
  in_range idx (vshape (advantages_ref self tb)) = true ->
  item (advantages_array self tb) idx
  = div N
      (sub N (item (raw_advantages self tb) idx)
             (np_mean (raw_advantages self tb)))
      (add N
         (pstd (map (fun v => sub N v (np_mean (raw_advantages self tb)))
                  (ravel (raw_advantages self tb))))
         eps).
Proof.
  intros Hn Hidx. unfold advantages_array, mem_normalized. rewrite Hn.
  unfold deref at 1. cbn [item].
  unfold scaled. rewrite item_inplace by exact Hidx.
  unfold np_std at 1. rewrite ravel_centred.
  unfold centred. rewrite item_inplace by exact Hidx.
  reflexivity.
Qed.

(** The batch as it is in memory at each stage. *)
Lemma batch_of_mem_estimate : batch_of (mem_estimate self tb) = tb.
Proof.
  unfold batch_of. rewrite !mem_estimate_frame by discriminate.
  reflexivity.
Qed.

Lemma batch_of_update_weights (m : memory N) (a : ndarray N) :
  batch_of (update m Weights a) = batch_of m.
Proof. reflexivity. Qed.

(** The in-place normalisation leaves the batch alone when it is switched
    off, and when the advantages do not share memory with a field. *)
Lemma batch_of_mem_normalized :
  advantage_normalization self = false \/
  base (advantages_ref self tb) = Estimate \/
  base (advantages_ref self tb) = Values ->
  batch_of (mem_normalized self tb) = tb.
Proof.
  intros [Hoff|Hbase].
  - rewrite mem_normalized_off by exact Hoff. apply batch_of_mem_estimate.
  - transitivity (batch_of (mem_estimate self tb));
      [| apply batch_of_mem_estimate].
    unfold batch_of.
    rewrite !mem_normalized_other; [reflexivity|..];
      destruct Hbase as [-> | ->]; discriminate.
Qed.

(** The weights, entry by entry. *)
Lemma item_weights_array (B k i t : nat) :
  i < B -> t < k ->
  item (weights_array self tb B k) [i; t]
  = mul N
      (item (weight_fn self (advantages_array self tb))
         (bidx (shape (weight_fn self (advantages_array self tb))) [i; t]))
      (item (mask tb) [i; t]).
Proof.
  intros Hi Ht. unfold weights_array. cbn [item].
  rewrite mem_normalized_frame by auto.
  rewrite (@bidx_in_range [B; k]) by (apply in_range_2; auto).
  reflexivity.
Qed.

Lemma item_weights (B k i t : nat) :
  i < B -> t < k ->
  item (deref (mem_final self tb B k) (View Weights [B; k])) [i; t]
  = mul N
      (item (weight_fn self (advantages_array self tb))
         (bidx (shape (weight_fn self (advantages_array self tb))) [i; t]))
      (item (mask tb) [i; t]).
Proof.
  intros Hi Ht. unfold deref, mem_final. cbn [base item].
  rewrite update_eq. apply item_weights_array; assumption.
Qed.

Lemma log_final_estimator B k :
  In (Call_advantage_estimator (raw_advantages self tb))
     (log_final self tb B k).
Proof.
  unfold log_final, log_normalized, log_estimate. do 2 right.
  apply in_or_app. right. left. reflexivity.
Qed.

Lemma log_final_weight_fn B k :
  In (Call_weight_fn (advantages_array self tb)) (log_final self tb B k).
Proof. right. left. reflexivity. Qed.

(** A run that returns has passed every check. *)
Lemma build_ok_inv o a w s' :
  build self tb = (Ok (o, a, w), s') ->
  exists B T k ro ra,
    accepted self tb B T k ro ra /\
    o = View Observations (B :: k :: ro) /\
    a = View Actions (B :: k :: ra) /\
    w = View Weights [B; k] /\
    s' = State (mem_final self tb B k) (log_final self tb B k).
Proof.
  intros H. pose proof (build_outcome self tb) as Hout.
  rewrite H in Hout. inversion Hout; subst.
  exists B, T, k, ro, ra. auto.
Qed.

(** A batch that passes every check makes the run return. *)
Lemma build_accepted B T k ro ra :
  accepted self tb B T k ro ra ->
  build self tb
  = (Ok (View Observations (B :: k :: ro), View Actions (B :: k :: ra),
         View Weights [B; k]),
     State (mem_final self tb B k) (log_final self tb B k)).
Proof.
  intros [Ho Ha Hm Hv Hadv Hk Hw].
  assert (Ho2 : firstn 2 (shape (observations tb)) = [B; T])
    by (rewrite Ho; reflexivity).
  assert (Ha2 : firstn 2 (shape (actions tb)) = [B; T])
    by (rewrite Ha; reflexivity).
  assert (Hn : nth_error (vshape (advantages_ref self tb)) 1 = Some k)
    by (rewrite Hadv; reflexivity).
  pose proof (build_outcome self tb) as Hout.
  destruct Hout as
    [B' T' k' ro' ra' [Ho' Ha' Hm' Hv' Hadv' Hk' Hw']
    | Hno
    | B' T' Hob Hac
    | B' T' Hob Hac Hma
    | B' T' (Hob & Hac & Hma) Hva
    | B' T' ((Hob & Hac & Hma) & Hva) Hnth
    | B' T' k' ((Hob & Hac & Hma) & Hva) Hnth Hlt
    | B' T' k' ((Hob & Hac & Hma) & Hva) Hnth Hle Hne
    | B' T' k' (((Hob & Hac & Hma) & Hva) & Hle & Had) Hbc
    | B' T' k' s (((Hob & Hac & Hma) & Hva) & Hle & Had) Hbc Hne ].
  - rewrite Ho in Ho'. rewrite Ha in Ha'. rewrite Hadv in Hadv'.
    injection Ho' as -> -> ->. injection Ha' as ->. injection Hadv' as ->.
    reflexivity.
  - exfalso. exact (Hno _ _ Ho2).
  - exfalso. congruence.
  - exfalso. congruence.
  - exfalso. congruence.
  - exfalso. congruence.
  - exfalso. assert (k' = k) by congruence. assert (T' = T) by congruence. lia.
  - exfalso. assert (k' = k) by congruence. assert (B' = B) by congruence.
    congruence.
  - exfalso. assert (k' = k) by congruence. assert (B' = B) by congruence.
    congruence.
  - exfalso. assert (k' = k) by congruence. assert (B' = B) by congruence.
    subst. rewrite Hw in Hbc. congruence.
Qed.

(** What a run leaves in the fields of the batch. *)
Lemma batch_after_build r s' :
  build self tb = (r, s') ->
  observations (batch_after s') = observations tb /\
  actions (batch_after s') = actions tb /\
  mask (batch_after s') = mask tb /\
  (advantage_normalization self = false \/
   base (advantages_ref self tb) = Estimate \/
   base (advantages_ref self tb) = Values ->
   batch_after s' = tb).
Proof.
  intros H. pose proof (build_outcome self tb) as Hout. rewrite H in Hout.
  unfold batch_after.
  inversion Hout; subst; cbn [mem enter];
    try (repeat split; reflexivity);
    try (rewrite batch_of_mem_estimate; repeat split; reflexivity);
    try rewrite batch_of_update_weights;
    (split; [apply (mem_normalized_frame (n := Observations)); auto|]);
    (split; [apply (mem_normalized_frame (n := Actions)); auto|]);
    (split; [apply (mem_normalized_frame (n := Mask)); auto|]);
    apply batch_of_mem_normalized.
Qed.

End StageFacts.

(** ** Prefixes *)

Section Prefix.

Context {N : arithmetic}.

Lemma prefix_cols_shape (k b t : nat) (rest : list nat) (x : ndarray N) :
  shape x = b :: t :: rest -> k <= t ->
  shape (prefix_cols k x) = b :: k :: rest.
Proof.
  intros Hs Hk. unfold prefix_cols. cbn [shape]. rewrite Hs.
  unfold slice_shape. rewrite Nat.min_l by exact Hk. reflexivity.
Qed.

(** The indices of [x[:, :k]] are the indices of [x] whose position on
    axis 1 is below [k]. *)
Lemma prefix_cols_range (k b t : nat) (rest idx : list nat) (x : ndarray N) :
  shape x = b :: t :: rest -> k <= t ->
  in_range idx (shape (prefix_cols k x)) = true <->
  in_range idx (shape x) = true /\ nth 1 idx 0 < k.
Proof.
  intros Hs Hk. rewrite (prefix_cols_shape x Hs Hk), Hs.
  destruct idx as [|i [|j idx']]; simpl.
  - split; [discriminate | intros [H _]; discriminate].
  - rewrite andb_false_r. split; [discriminate | intros [H _]; discriminate].
  - rewrite !andb_true_iff, !Nat.ltb_lt. split.
    + intros (Hi & Hj & Hr). repeat split; auto. lia.
    + intros ((Hi & Hj & Hr) & Hlt). auto.
Qed.

Lemma deref_prefix (m : memory N) (n : name) (x : ndarray N) (k b t : nat)
    (rest : list nat) :
  m n = x -> shape x = b :: t :: rest -> k <= t ->
  deref m (View n (b :: k :: rest)) = prefix_cols k x.
Proof.
  intros Hm Hs Hk. unfold deref, prefix_cols. cbn [base vshape].
  rewrite Hm, Hs. unfold slice_shape. rewrite Nat.min_l by exact Hk.
  reflexivity.
Qed.

Lemma mask_trimmed_prefix (self : PolicyTrainTask N) (tb : TrajectoryNp N)
    B T k :
  shape (mask tb) = [B; T] -> k <= T ->
  mask_trimmed self tb B k = prefix_cols k (mask tb).
Proof.
  intros Hs Hk. unfold mask_trimmed.
  apply deref_prefix with (t := T); auto.
  apply (mem_normalized_frame self tb (n := Mask)). auto.
Qed.

End Prefix.

(** ** Shapes, trimming and masking *)

(** C2.  For every valid trajectory batch (observations, actions and mask
    agree on [(batch_size, seq_len)], [value_fn] returns shape
    [(batch_size, seq_len)], the advantage estimator returns shape
    [(batch_size, adv_seq_len)] with [adv_seq_len <= seq_len], [weight_fn]
    preserves shapes), [policy_batch] returns a triple whose observations and
    actions have leading shape [(batch_size, adv_seq_len)] and whose weights
    have exactly that shape, [adv_seq_len] being the time dimension of the
    array the estimator returned.  In every arithmetic. *)
Theorem policy_batch_shapes {N} (self : PolicyTrainTask N)
    (tb : TrajectoryNp N) B T k ro ra :
  shape (observations tb) = B :: T :: ro ->
  shape (actions tb) = B :: T :: ra ->
  shape (mask tb) = [B; T] ->
  shape (value_fn self tb) = [B; T] ->
  shape (raw_advantages self tb) = [B; k] ->
  k <= T ->
  (forall x, shape (weight_fn self x) = shape x) ->
  exists o a w s',
    build self tb = (Ok (o, a, w), s') /\
    (exists A, In (Call_advantage_estimator A) (log s') /\
               nth_error (shape A) 1 = Some k) /\
    firstn 2 (shape (deref (mem s') o)) = [B; k] /\
    firstn 2 (shape (deref (mem s') a)) = [B; k] /\
    shape (deref (mem s') w) = [B; k].
Proof.
  intros Ho Ha Hm Hv Hadv Hk Hw.
  assert (Hacc : accepted self tb B T k ro ra).
  { constructor; auto.
    rewrite Hw, shape_advantages_array, <- shape_raw_advantages, Hadv.
    apply broadcast_shapes_same. }
  eexists _, _, _, _. split; [apply (build_accepted Hacc)|].
  cbn [mem log deref shape vshape]. split.
  - exists (raw_advantages self tb). split.
    + apply log_final_estimator.
    + rewrite Hadv. reflexivity.
  - auto.
Qed.

Lemma policy_batch_shapes_witness :
  exists o a w s',
    build (a2c64 2 true) margin_batch = (Ok (o, a, w), s') /\
    (exists A, In (Call_advantage_estimator A) (log s') /\
               nth_error (shape A) 1 = Some 3) /\
    firstn 2 (shape (deref (mem s') o)) = [4; 3] /\
    firstn 2 (shape (deref (mem s') a)) = [4; 3] /\
    shape (deref (mem s') w) = [4; 3].
Proof.
  apply (@policy_batch_shapes binary64 (a2c64 2 true) margin_batch
           4 5 3 [6] []);
    try reflexivity; simpl; lia.
Defined.

(** C3, as stated, fails in float64: where the mask is 0 the weight is
    [weight_fn(advantages) * 0], which is nan, not 0, when [weight_fn]
    returned an infinity (or a nan) there.  Here the advantages are 2^600,
    [weight_fn] squares them (an overflow, as of the exponential of AWR),
    the mask is [1, 0], and the weights are [inf, nan]. *)
Lemma masked_weight_can_be_nan :
  build squaring_task overflow_batch64
  = (Ok (View Observations [1; 2], View Actions [1; 2], View Weights [1; 2]),
     snd (build squaring_task overflow_batch64)) /\
  is_zero binary64 (item (mask overflow_batch64) [0; 1]) /\
  PrimFloat.is_finite
    (item (raw_advantages squaring_task overflow_batch64) [0; 1]) = true /\
  PrimFloat.is_zero
    (item (deref (mem (snd (build squaring_task overflow_batch64)))
                 (View Weights [1; 2])) [0; 1]) = false /\
  PrimFloat.is_nan
    (item (deref (mem (snd (build squaring_task overflow_batch64)))
                 (View Weights [1; 2])) [0; 1]) = true.
Proof. repeat split. Qed.

(** C3, amended.  On every batch on which [policy_batch] returns, in every
    arithmetic, the weights are the broadcast product of
    [weight_fn(advantages)] and the trimmed mask; when [weight_fn] returned
    an array of the shape of the weights the product is entry by entry; and
    wherever the mask is 0 and [weight_fn] returned a finite number the
    weight is 0, whatever the advantage. *)
Theorem weights_are_masked {N} (self : PolicyTrainTask N)
    (tb : TrajectoryNp N) o a w s' :
  build self tb = (Ok (o, a, w), s') ->
  exists adv msk,
    In (Call_weight_fn adv) (log s') /\
    In (Arith_multiply (weight_fn self adv) msk) (log s') /\
    msk = prefix_cols (nth 1 (vshape w) 0) (mask tb) /\
    forall i t,
      in_range [i; t] (vshape w) = true ->
      item (deref (mem s') w) [i; t]
      = mul N (item (weight_fn self adv)
                 (bidx (shape (weight_fn self adv)) [i; t]))
              (item msk [i; t]) /\
      (shape (weight_fn self adv) = vshape w ->
       item (deref (mem s') w) [i; t]
       = mul N (item (weight_fn self adv) [i; t]) (item msk [i; t])) /\
      (is_zero N (item (mask tb) [i; t]) ->
       finite N (item (weight_fn self adv)
                   (bidx (shape (weight_fn self adv)) [i; t])) ->
       is_zero N (item (deref (mem s') w) [i; t])).
Proof.
  intros H. apply build_ok_inv in H.
  destruct H as (B & T & k & ro & ra & Hacc & -> & -> & -> & ->).
  destruct Hacc as [Ho Ha Hm Hv Hadv Hk Hw].
  exists (advantages_array self tb), (mask_trimmed self tb B k).
  cbn [mem log vshape nth].
  split; [apply log_final_weight_fn|].
  split; [left; reflexivity|].
  split; [apply mask_trimmed_prefix with (T := T); assumption|].
  intros i t Hit.
  assert (Hlt : i < B /\ t < k) by (apply in_range_2; exact Hit).
  destruct Hlt as [Hi Ht].
  pose proof (item_weights self tb Hi Ht) as E.
  assert (Em : item (mask_trimmed self tb B k) [i; t] = item (mask tb) [i; t]).
  { rewrite (mask_trimmed_prefix self tb Hm Hk). reflexivity. }
  rewrite Em. split; [exact E|]. split.
  - intros Hs. rewrite E, Hs, (bidx_in_range _ _ Hit). reflexivity.
  - intros H0 Hfin. rewrite E. apply mul_zero; assumption.
Qed.

Lemma weights_are_masked_witness :
  exists adv msk,
    In (Call_weight_fn adv)
       (log (snd (build (a2c64 0 false) masked_batch64))) /\
    In (Arith_multiply (weight_fn (a2c64 0 false) adv) msk)
       (log (snd (build (a2c64 0 false) masked_batch64))) /\
    msk = prefix_cols 2 (mask masked_batch64) /\
    forall i t,
      in_range [i; t] [1; 2] = true ->
      item (deref (mem (snd (build (a2c64 0 false) masked_batch64)))
                  (View Weights [1; 2])) [i; t]
      = mul binary64
          (item (weight_fn (a2c64 0 false) adv)
             (bidx (shape (weight_fn (a2c64 0 false) adv)) [i; t]))
          (item msk [i; t]) /\
      (shape (weight_fn (a2c64 0 false) adv) = [1; 2] ->
       item (deref (mem (snd (build (a2c64 0 false) masked_batch64)))
                   (View Weights [1; 2])) [i; t]
       = mul binary64 (item (weight_fn (a2c64 0 false) adv) [i; t])
           (item msk [i; t])) /\
      (is_zero binary64 (item (mask masked_batch64) [i; t]) ->
       finite binary64
         (item (weight_fn (a2c64 0 false) adv)
            (bidx (shape (weight_fn (a2c64 0 false) adv)) [i; t])) ->
       is_zero binary64
         (item (deref (mem (snd (build (a2c64 0 false) masked_batch64)))
                      (View Weights [1; 2])) [i; t])).
Proof.
  apply (@weights_are_masked binary64 (a2c64 0 false) masked_batch64
           (View Observations [1; 2]) (View Actions [1; 2])
           (View Weights [1; 2])).
  reflexivity.
Defined.

(** In exact arithmetic every number is finite: wherever the mask is 0 the
    weight is 0. *)
Lemma weights_are_masked_exact (self : PolicyTrainTask exact)
    (tb : TrajectoryNp exact) o a w s' i t :
  build self tb = (Ok (o, a, w), s') ->
  in_range [i; t] (vshape w) = true ->
  item (mask tb) [i; t] = 0%R ->
  item (deref (mem s') w) [i; t] = 0%R.
Proof.
  intros H Hit H0. apply build_ok_inv in H.
  destruct H as (B & T & k & ro & ra & Hacc & -> & -> & -> & ->).
  assert (Hlt : i < B /\ t < k) by (apply in_range_2; exact Hit).
  destruct Hlt as [Hi Ht].
  cbn [mem]. rewrite (item_weights self tb Hi Ht), H0.
  apply Rmult_0_r.
Qed.

(** C4.  On every batch on which [policy_batch] returns, the returned
    observations and actions and the mask the weights are multiplied with
    are the first [adv_seq_len] timesteps of the batch's observations,
    actions and mask, entry for entry, [adv_seq_len] being the time
    dimension of the array the estimator returned.  In every arithmetic. *)
Theorem trimmed_to_prefix {N} (self : PolicyTrainTask N)
    (tb : TrajectoryNp N) o a w s' :
  build self tb = (Ok (o, a, w), s') ->
  exists B T k ro ra,
    shape (observations tb) = B :: T :: ro /\
    shape (actions tb) = B :: T :: ra /\
    shape (mask tb) = [B; T] /\
    k <= T /\
    (exists A, In (Call_advantage_estimator A) (log s') /\ shape A = [B; k]) /\
    deref (mem s') o = prefix_cols k (observations tb) /\
    deref (mem s') a = prefix_cols k (actions tb) /\
    (exists wv, In (Arith_multiply wv (prefix_cols k (mask tb))) (log s')) /\
    shape (prefix_cols k (observations tb)) = B :: k :: ro /\
    shape (prefix_cols k (actions tb)) = B :: k :: ra /\
    shape (prefix_cols k (mask tb)) = [B; k].
Proof.
  intros H. apply build_ok_inv in H.
  destruct H as (B & T & k & ro & ra & Hacc & -> & -> & -> & ->).
  destruct Hacc as [Ho Ha Hm Hv Hadv Hk Hw].
  exists B, T, k, ro, ra. cbn [mem log].
  repeat (split; [assumption|]).
  split.
  { exists (raw_advantages self tb). split; [|exact Hadv].
    apply log_final_estimator. }
  split.
  { apply deref_prefix with (t := T); auto.
    apply (mem_final_frame self tb B k (n := Observations)). auto. }
  split.
  { apply deref_prefix with (t := T); auto.
    apply (mem_final_frame self tb B k (n := Actions)). auto. }
  split.
  { exists (weight_fn self (advantages_array self tb)). left.
    rewrite (mask_trimmed_prefix self tb Hm Hk). reflexivity. }
  split; [apply prefix_cols_shape with (t := T); assumption|].
  split; apply prefix_cols_shape with (t := T); assumption.
Qed.

Lemma trimmed_to_prefix_witness :
  exists B T k ro ra,
    shape (observations (margin_batch (N := binary64))) = B :: T :: ro /\
    shape (actions (margin_batch (N := binary64))) = B :: T :: ra /\
    shape (mask (margin_batch (N := binary64))) = [B; T] /\
    k <= T /\
    (exists A,
        In (Call_advantage_estimator A)
           (log (snd (build (a2c64 2 true) margin_batch))) /\
        shape A = [B; k]) /\
    deref (mem (snd (build (a2c64 2 true) margin_batch)))
          (View Observations [4; 3; 6])
    = prefix_cols k (observations margin_batch) /\
    deref (mem (snd (build (a2c64 2 true) margin_batch)))
          (View Actions [4; 3])
    = prefix_cols k (actions margin_batch) /\
    (exists wv,
        In (Arith_multiply wv (prefix_cols k (mask margin_batch)))
           (log (snd (build (a2c64 2 true) margin_batch)))) /\
    shape (prefix_cols k (observations (margin_batch (N := binary64))))
    = B :: k :: ro /\
    shape (prefix_cols k (actions (margin_batch (N := binary64))))
    = B :: k :: ra /\
    shape (prefix_cols k (mask (margin_batch (N := binary64)))) = [B; k].
Proof.
  apply (@trimmed_to_prefix binary64 (a2c64 2 true) margin_batch
           (View Observations [4; 3; 6]) (View Actions [4; 3])
           (View Weights [4; 3])).
  reflexivity.
Defined.

(** For the example of the comment at lines 128-131 ([seq_len] 5, margin 2)
    the trimmed arrays are the first 3 timesteps. *)
Example margin_example :
  build (a2c64 2 true) margin_batch
  = (Ok (View Observations [4; 3; 6], View Actions [4; 3],
         View Weights [4; 3]),
     snd (build (a2c64 2 true) margin_batch)) /\
  deref (mem (snd (build (a2c64 2 true) margin_batch)))
        (View Observations [4; 3; 6])
  = prefix_cols 3 (observations margin_batch) /\
  deref (mem (snd (build (a2c64 2 true) margin_batch))) (View Actions [4; 3])
  = prefix_cols 3 (actions margin_batch) /\
  shape (prefix_cols 3 (observations (margin_batch (N := binary64))))
  = [4; 3; 6] /\
  item (prefix_cols 3 (observations (margin_batch (N := binary64)))) [1; 2; 4]
  = 46%float.
Proof. repeat split. Qed.

(** ** Failures *)

(** Observations with fewer than two axes fail at the unpacking of line 110
    with a [ValueError], before anything is called. *)
Lemma unpack_fails_first {N} (self : PolicyTrainTask N) (tb : TrajectoryNp N) :
  length (shape (observations tb)) < 2 ->
  build self tb = (Raise ValueError, enter tb).
Proof.
  intros Hlen. unfold build, policy_batch.
  do 3 step.
  cbn [vshape mem enter].
  change (load tb Observations) with (observations tb).
  destruct (shape (observations tb)) as [|B [|T ro]];
    try (simpl in Hlen; lia); reflexivity.
Qed.

(** C5, as stated, fails: a batch whose [actions.shape[:2]] differs from
    [mask.shape] does not always fail with the assertion error that the
    specification calls ShapeMismatch.  When its observations have a single
    axis, the unpacking of line 110 raises [ValueError] first. *)
Lemma mismatch_can_raise_value_error :
  firstn 2 (shape (actions (flat_mismatched_batch (N := binary64)))) = [2; 3] /\
  shape (mask (flat_mismatched_batch (N := binary64))) = [2; 4] /\
  build (a2c64 0 true) flat_mismatched_batch
  = (Raise ValueError, enter flat_mismatched_batch) /\
  ValueError <> AssertionError [].
Proof. repeat split. discriminate. Qed.

(** C5, amended.  Every batch whose [actions.shape[:2]] differs from
    [mask.shape] makes [policy_batch] fail before anything else happens:
    [value_fn], the advantage estimator and [weight_fn] have not been
    called, no arithmetic has been done and no array allocated.  The error
    is the bare assertion error of line 111 or 112 when the observations
    have the two leading axes that define [batch_size] and [seq_len], and
    the [ValueError] of the unpacking of line 110 when they have fewer.  In
    every arithmetic. *)
Theorem mismatch_fails_first {N} (self : PolicyTrainTask N)
    (tb : TrajectoryNp N) :
  firstn 2 (shape (actions tb)) <> shape (mask tb) ->
  exists e s',
    build self tb = (Raise e, s') /\
    log s' = [] /\
    mem s' = load tb /\
    (2 <= length (shape (observations tb)) -> e = AssertionError []) /\
    (length (shape (observations tb)) < 2 -> e = ValueError).
Proof.
  intros Hne.
  destruct (le_lt_dec 2 (length (shape (observations tb)))) as [Hlen|Hlen].
  - exists (AssertionError []), (enter tb).
    split; [|split; [reflexivity|split; [reflexivity|]]].
    + unfold build, policy_batch.
      do 3 step.
      cbn [vshape mem enter].
      change (load tb Observations) with (observations tb).
      change (load tb Actions) with (actions tb).
      change (load tb Mask) with (mask tb).
      destruct (shape (observations tb)) as [|B [|T ro]];
        try (simpl in Hlen; lia).
      step.
      destruct (shape_eqb (firstn 2 (shape (actions tb))) [B; T]) eqn:Hact;
        [| reflexivity].
      step.
      destruct (shape_eqb (shape (mask tb)) [B; T]) eqn:Hmask;
        [| reflexivity].
      apply shape_eqb_eq in Hact, Hmask. congruence.
    + split; [reflexivity | intros H; lia].
  - exists ValueError, (enter tb).
    split; [apply unpack_fails_first; exact Hlen|].
    split; [reflexivity|]. split; [reflexivity|].
    split; [intros H; lia | reflexivity].
Qed.

Lemma mismatch_fails_first_witness :
  exists e s',
    build (a2c64 0 true) mismatched_batch = (Raise e, s') /\
    log s' = [] /\
    mem s' = load mismatched_batch /\
    (2 <= length (shape (observations (mismatched_batch (N := binary64)))) ->
     e = AssertionError []) /\
    (length (shape (observations (mismatched_batch (N := binary64)))) < 2 ->
     e = ValueError).
Proof.
  apply (@mismatch_fails_first binary64 (a2c64 0 true) mismatched_batch).
  simpl. discriminate.
Defined.

(** C6, as stated, fails: the error raised on a batch whose actions have
    shape [(2, 3)] and whose mask has shape [(2, 4)] is a bare
    [AssertionError()], which carries neither shape. *)
Lemma assertion_error_is_bare :
  build (a2c64 0 true) mismatched_batch
  = (Raise (AssertionError []), enter mismatched_batch) /\
  firstn 2 (shape (actions (mismatched_batch (N := binary64)))) = [2; 3] /\
  shape (mask (mismatched_batch (N := binary64))) = [2; 4] /\
  ~ carries (AssertionError []) [2; 3] /\
  ~ carries (AssertionError []) [2; 4].
Proof.
  repeat split; simpl; tauto.
Qed.

(** C6, amended.  On writable float arrays, every error [policy_batch] raises is
    raised by the first check that fails, in the state reached by then.  It
    is a bare [AssertionError()] for a failed assertion, a [ValueError] when
    the observations have fewer than two axes or [weight_fn]'s result does
    not broadcast against the trimmed mask, an [IndexError] when the
    advantages have fewer than two axes; none of them carries a shape.  In
    every arithmetic. *)
Theorem errors_of_policy_batch {N} (self : PolicyTrainTask N)
    (tb : TrajectoryNp N) e s' :
  build self tb = (Raise e, s') ->
  outcome self tb (Raise e, s') /\
  (forall s, ~ carries e s) /\
  (e = AssertionError [] \/
   (e = ValueError /\
    ((forall B T, firstn 2 (shape (observations tb)) <> [B; T]) \/
     exists B k,
       shape (raw_advantages self tb) = [B; k] /\
       broadcast_shapes (shape (weight_fn self (advantages_array self tb)))
         [B; k] = None)) \/
   (e = IndexError /\ nth_error (shape (raw_advantages self tb)) 1 = None)).
Proof.
  intros H. pose proof (build_outcome self tb) as Hout. rewrite H in Hout.
  split; [exact Hout|].
  inversion Hout; subst; (split; [intros s0 Hc; exact Hc|]);
    try (left; reflexivity).
  - right; left. split; [reflexivity|]. left. assumption.
  - right; right. split; [reflexivity|]. assumption.
  - right; left. split; [reflexivity|]. right.
    match goal with Hc : advantages_checked _ _ _ _ _ |- _ =>
      destruct Hc as (_ & _ & Hadv) end.
    eauto.
Qed.

Lemma errors_of_policy_batch_witness :
  outcome (a2c64 0 true) mismatched_batch
    (Raise (AssertionError []), enter mismatched_batch) /\
  (forall s, ~ carries (AssertionError []) s) /\
  (AssertionError [] = AssertionError [] \/
   (AssertionError [] = ValueError /\
    ((forall B T,
         firstn 2 (shape (observations (mismatched_batch (N := binary64))))
         <> [B; T]) \/
     exists B k,
       shape (raw_advantages (a2c64 0 true) mismatched_batch) = [B; k] /\
       broadcast_shapes
         (shape (weight_fn (a2c64 0 true)
                   (advantages_array (a2c64 0 true) mismatched_batch)))
         [B; k] = None)) \/
   (AssertionError [] = IndexError /\
    nth_error (shape (raw_advantages (a2c64 0 true) mismatched_batch)) 1
    = None)).
Proof.
  apply (@errors_of_policy_batch binary64 (a2c64 0 true) mismatched_batch).
  reflexivity.
Defined.

(** On writable float arrays and within the documented ranks (observations and
    advantages with two leading axes, a shape-preserving [weight_fn]) the
    only error is the bare assertion error. *)
Lemma errors_within_contract {N} (self : PolicyTrainTask N)
    (tb : TrajectoryNp N) e s' :
  2 <= length (shape (observations tb)) ->
  2 <= length (shape (raw_advantages self tb)) ->
  (forall x, shape (weight_fn self x) = shape x) ->
  build self tb = (Raise e, s') ->
  e = AssertionError [].
Proof.
  intros Hobs Hadv Hw H.
  pose proof (build_outcome self tb) as Hout. rewrite H in Hout.
  inversion Hout; subst; auto.
  - exfalso. destruct (shape (observations tb)) as [|B [|T ro]];
      try (simpl in Hobs; lia).
    match goal with Hno : forall B T, _ <> _ |- _ => apply (Hno B T) end.
    reflexivity.
  - exfalso. rewrite shape_raw_advantages in Hadv.
    destruct (vshape (advantages_ref self tb)) as [|b [|t r]];
      try (simpl in Hadv; lia).
    discriminate.
  - exfalso.
    match goal with Hc : advantages_checked _ _ _ _ _ |- _ =>
      destruct Hc as (_ & _ & Had) end.
    match goal with Hb : broadcast_shapes _ _ = None |- _ =>
      rewrite Hw, shape_advantages_array, Had, broadcast_shapes_same in Hb
    end.
    discriminate.
Qed.

(** ** The entropy metric *)

(** C7.  [entropy_metric] does not depend on its [actions] and [weights]
    arguments, whatever they are, in every arithmetic: two calls with the
    same [policy_inputs] return the same scalar.  In exact arithmetic that
    scalar is the arithmetic mean over all entries of the entropy the policy
    distribution computes on [policy_inputs]: the entries added over every
    axis, divided by their number. *)
Theorem entropy_metric_ignores_labels :
  (forall N (policy_dist : Distribution N) (policy_inputs : ndarray N)
          (A W A' W' : Type) (actions1 : A) (weights1 : W) (actions2 : A')
          (weights2 : W'),
      entropy_metric policy_dist policy_inputs actions1 weights1
      = entropy_metric policy_dist policy_inputs actions2 weights2) /\
  (forall (policy_dist : Distribution exact) (policy_inputs : ndarray exact)
          (A W : Type) (actions_ : A) (weights_ : W),
      entropy_metric policy_dist policy_inputs actions_ weights_
      = arithmetic_mean (entropy policy_dist policy_inputs)).
Proof.
  split.
  - intros. reflexivity.
  - intros. unfold entropy_metric. apply np_mean_arithmetic_mean.
Qed.

(** In exact arithmetic, a distribution whose entropy is the same number
    [h] at every timestep (a categorical distribution with uniform logits
    over K actions has [h = ln K]) has entropy metric [h], with
    placeholders for the labels. *)
Lemma entropy_metric_constant (policy_dist : Distribution exact)
    (policy_inputs : ndarray exact) (h : R) :
  ravel (entropy policy_dist policy_inputs) <> [] ->
  (forall idx,
      in_range idx (shape (entropy policy_dist policy_inputs)) = true ->
      item (entropy policy_dist policy_inputs) idx = h) ->
  entropy_metric policy_dist policy_inputs tt tt = h.
Proof.
  intros Hne Hc. unfold entropy_metric. rewrite np_mean_exact.
  apply mean_constant; [exact Hne|].
  apply ravel_constant, Hc.
Qed.

(** ** Determinism and the frame *)

(** C8.  With [advantage_normalization=False], a call leaves the batch as it
    was, and a second call on the same batch ends exactly as the first: in
    particular it returns weights equal to those of the first call.  In
    every arithmetic. *)
Theorem build_twice_same_weights {N} (self : PolicyTrainTask N)
    (tb : TrajectoryNp N) o1 a1 w1 s1 :
  advantage_normalization self = false ->
  build self tb = (Ok (o1, a1, w1), s1) ->
  batch_after s1 = tb /\
  build self (batch_after s1) = (Ok (o1, a1, w1), s1) /\
  exists o2 a2 w2 s2,
    build self (batch_after s1) = (Ok (o2, a2, w2), s2) /\
    deref (mem s2) w2 = deref (mem s1) w1.
Proof.
  intros Hoff H.
  destruct (batch_after_build self tb H) as (_ & _ & _ & Hframe).
  assert (E : batch_after s1 = tb) by (apply Hframe; left; exact Hoff).
  rewrite E. split; [reflexivity|]. split; [exact H|].
  exists o1, a1, w1, s1. split; [exact H | reflexivity].
Qed.

Lemma build_twice_same_weights_witness :
  batch_after (snd (build (a2c64 2 false) margin_batch)) = margin_batch /\
  build (a2c64 2 false)
    (batch_after (snd (build (a2c64 2 false) margin_batch)))
  = (Ok (View Observations [4; 3; 6], View Actions [4; 3],
         View Weights [4; 3]),
     snd (build (a2c64 2 false) margin_batch)) /\
  exists o2 a2 w2 s2,
    build (a2c64 2 false)
      (batch_after (snd (build (a2c64 2 false) margin_batch)))
    = (Ok (o2, a2, w2), s2) /\
    deref (mem s2) w2
    = deref (mem (snd (build (a2c64 2 false) margin_batch)))
        (View Weights [4; 3]).
Proof.
  apply (@build_twice_same_weights binary64 (a2c64 2 false) margin_batch
           (View Observations [4; 3; 6]) (View Actions [4; 3])
           (View Weights [4; 3])); reflexivity.
Defined.

(** ** In-place normalisation and the batch *)

(** What an estimator that returns [returns] itself leaves in the batch, in
    float64: [returns[0, 0]], -1 before the call, is
    -0.99999000009999894 after. *)
Lemma normalization_overwrites_returns_value :
  item (returns opposite_batch64) [0; 0] = (-1)%float /\
  item (returns (batch_after
                   (snd (build (aliasing_task default_epsilon64)
                           opposite_batch64))))
       [0; 0] = (-0x1.fffeb07583583p-1)%float.
Proof. split; reflexivity. Qed.

(** C9, as stated, fails: with normalisation on and an estimator that
    returns [returns] itself, the call overwrites [returns] in the batch. *)
Lemma normalization_overwrites_returns :
  advantage_estimator (aliasing_task default_epsilon64)
    (rewards opposite_batch64) (returns opposite_batch64)
    (dones opposite_batch64)
    (value_fn (aliasing_task default_epsilon64) opposite_batch64)
  = Slice Arg_returns 2 /\
  build (aliasing_task default_epsilon64) opposite_batch64
  = (Ok (View Observations [1; 2], View Actions [1; 2], View Weights [1; 2]),
     snd (build (aliasing_task default_epsilon64) opposite_batch64)) /\
  item (returns opposite_batch64) [0; 0] = (-1)%float /\
  item (returns (batch_after
                   (snd (build (aliasing_task default_epsilon64)
                           opposite_batch64))))
       [0; 0] = (-0x1.fffeb07583583p-1)%float /\
  batch_after (snd (build (aliasing_task default_epsilon64) opposite_batch64))
  <> opposite_batch64.
Proof.
  destruct normalization_overwrites_returns_value as [E0 E1].
  split; [reflexivity|]. split; [reflexivity|].
  split; [exact E0|]. split; [exact E1|].
  intros Heq. rewrite Heq in E1. rewrite E0 in E1.
  apply (f_equal (fun x => PrimFloat.eqb x (-1)%float)) in E1.
  discriminate E1.
Qed.

(** C9, amended.  Whether it returns or fails, [policy_batch] never writes
    observations, actions or mask, and it leaves every field of the batch as
    it was when normalisation is off, or when the advantages the estimator
    returned are a new array or share memory only with [values].  In every
    arithmetic. *)
Theorem batch_is_preserved {N} (self : PolicyTrainTask N)
    (tb : TrajectoryNp N) r s' :
  build self tb = (r, s') ->
  observations (batch_after s') = observations tb /\
  actions (batch_after s') = actions tb /\
  mask (batch_after s') = mask tb /\
  (advantage_normalization self = false \/
   (exists x,
       advantage_estimator self (rewards tb) (returns tb) (dones tb)
         (value_fn self tb) = New x) \/
   (exists k,
       advantage_estimator self (rewards tb) (returns tb) (dones tb)
         (value_fn self tb) = Slice Arg_values k) ->
   batch_after s' = tb).
Proof.
  intros H.
  destruct (batch_after_build self tb H) as (Ho & Ha & Hm & Hframe).
  repeat (split; [assumption|]).
  intros Hcase. apply Hframe.
  destruct Hcase as [Hoff|[[x Hx]|[k Hk]]]; [left; exact Hoff| |];
    right; unfold advantages_ref, the_estimate.
  - rewrite Hx. left. reflexivity.
  - rewrite Hk. right. reflexivity.
Qed.

Lemma batch_is_preserved_witness :
  observations (batch_after (snd (build (a2c64 2 true) margin_batch)))
  = observations margin_batch /\
  actions (batch_after (snd (build (a2c64 2 true) margin_batch)))
  = actions margin_batch /\
  mask (batch_after (snd (build (a2c64 2 true) margin_batch)))
  = mask margin_batch /\
  (advantage_normalization (a2c64 2 true) = false \/
   (exists x,
       advantage_estimator (a2c64 2 true) (rewards margin_batch)
         (returns margin_batch) (dones margin_batch)
         (value_fn (a2c64 2 true) margin_batch) = New x) \/
   (exists k,
       advantage_estimator (a2c64 2 true) (rewards margin_batch)
         (returns margin_batch) (dones margin_batch)
         (value_fn (a2c64 2 true) margin_batch) = Slice Arg_values k) ->
   batch_after (snd (build (a2c64 2 true) margin_batch)) = margin_batch).
Proof.
  apply (@batch_is_preserved binary64 (a2c64 2 true) margin_batch
           (fst (build (a2c64 2 true) margin_batch))).
  reflexivity.
Defined.

(** ** Normalisation of the advantages *)

(** Lines 134-137 in every arithmetic: on a batch on which [policy_batch]
    returns with normalisation on, [weight_fn] is applied to the estimator's
    advantages minus the mean of all their entries, divided by the standard
    deviation of the centred entries plus epsilon (mean and standard
    deviation as [np_mean] and [pstd] compute them). *)
Lemma normalization_formula {N} (self : PolicyTrainTask N)
    (tb : TrajectoryNp N) o a w s' :
  advantage_normalization self = true ->
  build self tb = (Ok (o, a, w), s') ->
  exists A A',
    In (Call_advantage_estimator A) (log s') /\
    In (Call_weight_fn A') (log s') /\
    shape A' = shape A /\
    ravel A' = normalized (advantage_normalization_epsilon self) (ravel A) /\
    forall idx,
      in_range idx (shape A) = true ->
      item A' idx
      = div N (sub N (item A idx) (np_mean A))
          (add N (pstd (map (fun v => sub N v (np_mean A)) (ravel A)))
             (advantage_normalization_epsilon self)).
Proof.
  intros Hon H. apply build_ok_inv in H.
  destruct H as (B & T & k & ro & ra & Hacc & -> & -> & -> & ->).
  exists (raw_advantages self tb), (advantages_array self tb).
  cbn [log].
  split; [apply log_final_estimator|].
  split; [apply log_final_weight_fn|].
  split; [reflexivity|].
  split; [apply ravel_advantages_array_on; exact Hon|].
  intros idx Hidx. apply item_advantages_array_on; assumption.
Qed.

(** The same in float64, on advantages [-1e-5, 1e-5] with the default
    epsilon: the normalised advantages are [-0.5, 0.5]. *)
Example low_variance_float64 :
  ravel (raw_advantages (a2c64 0 true) low_variance_batch64)
  = [PrimFloat.opp default_epsilon64; default_epsilon64] /\
  ravel (advantages_array (a2c64 0 true) low_variance_batch64)
  = [(-0.5)%float; 0.5%float] /\
  np_std (advantages_array (a2c64 0 true) low_variance_batch64)
  = 0.5%float.
Proof. repeat split. Qed.

Local Open Scope R_scope.

(** C1, as stated, fails: advantages of small but non-zero variance are not
    normalised to standard deviation 1.  With the default epsilon 1e-5 and
    advantages [-1e-5, 1e-5] (standard deviation 1e-5), the normalised
    advantages are [-1/2, 1/2]: their mean is 0 but their standard deviation
    is 1/2, not within 1e-5 of 1. *)
Lemma low_variance_is_not_unit_std :
  advantage_normalization (a2c_task 0%nat true default_epsilon) = true /\
  build (a2c_task 0%nat true default_epsilon) low_variance_batch
  = (Ok (View Observations [1; 2]%nat, View Actions [1; 2]%nat,
         View Weights [1; 2]%nat),
     snd (build (a2c_task 0%nat true default_epsilon) low_variance_batch)) /\
  exists A A' : ndarray exact,
    In (Call_advantage_estimator A)
       (log (snd (build (a2c_task 0%nat true default_epsilon)
                    low_variance_batch))) /\
    In (Call_weight_fn A')
       (log (snd (build (a2c_task 0%nat true default_epsilon)
                    low_variance_batch))) /\
    np_std A = default_epsilon /\
    np_std A <> 0 /\
    ravel A' = [- (1 / 2); 1 / 2] /\
    np_mean A' = 0 /\
    np_std A' = 1 / 2 /\
    ~ Rabs (np_std A' - 1) <= default_epsilon.
Proof.
  set (t := a2c_task 0%nat true default_epsilon).
  set (b := low_variance_batch).
  assert (Heps : 0 < default_epsilon) by (unfold default_epsilon; lra).
  assert (Hraw : ravel (raw_advantages t b)
                 = [- default_epsilon; default_epsilon]).
  { cbn. f_equal; [|f_equal]; lra. }
  assert (Hstd : Rpstd (ravel (raw_advantages t b)) = default_epsilon).
  { rewrite Hraw. apply pstd_pair_opposite. lra. }
  assert (Hmean : Rmean (ravel (raw_advantages t b)) = 0).
  { rewrite Hraw, mean_pair. lra. }
  assert (Hnorm : ravel (advantages_array t b) = [- (1 / 2); 1 / 2]).
  { rewrite (ravel_advantages_array_on t b) by reflexivity.
    rewrite normalized_exact. unfold normalize.
    rewrite Hmean, Hstd, Hraw. cbn [map].
    change (advantage_normalization_epsilon t) with default_epsilon.
    f_equal; [|f_equal]; field; lra. }
  assert (Hstd' : Rpstd (ravel (advantages_array t b)) = 1 / 2).
  { rewrite Hnorm. apply pstd_pair_opposite. lra. }
  split; [reflexivity|]. split; [reflexivity|].
  exists (raw_advantages t b), (advantages_array t b).
  split; [apply (log_final_estimator t b 1%nat 2%nat)|].
  split; [apply (log_final_weight_fn t b 1%nat 2%nat)|].
  rewrite !np_std_exact, np_mean_exact, Hstd, Hstd', Hnorm, mean_pair.
  split; [reflexivity|]. split; [lra|]. split; [reflexivity|].
  split; [lra|]. split; [reflexivity|].
  unfold default_epsilon.
  replace (1 / 2 - 1) with (- (1 / 2)) by lra.
  rewrite Rabs_Ropp, Rabs_pos_eq by lra. lra.
Qed.

(** C1, amended.  In exact arithmetic, on every batch on which
    [policy_batch] returns with [advantage_normalization=True], the
    advantages [weight_fn] is applied to are the advantages the estimator
    returned, minus the mean of all their entries (batch and time flattened
    together), divided by the population standard deviation of all entries
    plus epsilon.  When there is at least one entry and epsilon is positive,
    their mean is 0 and their standard deviation is [sigma / (sigma + eps)],
    [sigma] being the standard deviation of the estimator's advantages: it
    is below 1 by [eps / (sigma + eps)], hence within [eps] of 1 when
    [sigma + eps >= 1]. *)
Theorem normalization_is_global (self : PolicyTrainTask exact)
    (tb : TrajectoryNp exact) o a w s' :
  advantage_normalization self = true ->
  build self tb = (Ok (o, a, w), s') ->
  exists A A' : ndarray exact,
    In (Call_advantage_estimator A) (log s') /\
    In (Call_weight_fn A') (log s') /\
    shape A' = shape A /\
    ravel A' = normalize (advantage_normalization_epsilon self) (ravel A) /\
    (forall idx,
        in_range idx (shape A) = true ->
        item A' idx
        = (item A idx - np_mean A)
          / (np_std A + advantage_normalization_epsilon self)) /\
    (ravel A <> [] ->
     0 < advantage_normalization_epsilon self ->
     np_mean A' = 0 /\
     np_std A'
     = np_std A / (np_std A + advantage_normalization_epsilon self) /\
     0 <= np_std A' < 1 /\
     1 - np_std A'
     = advantage_normalization_epsilon self
       / (np_std A + advantage_normalization_epsilon self) /\
     (1 <= np_std A + advantage_normalization_epsilon self ->
      Rabs (np_std A' - 1) <= advantage_normalization_epsilon self)).
Proof.
  intros Hon H. apply build_ok_inv in H.
  destruct H as (B & T & k & ro & ra & Hacc & -> & -> & -> & ->).
  exists (raw_advantages self tb), (advantages_array self tb).
  cbn [log].
  split; [apply log_final_estimator|].
  split; [apply log_final_weight_fn|].
  split; [reflexivity|].
  pose proof (ravel_advantages_array_on self tb Hon) as Hravel.
  rewrite normalized_exact in Hravel.
  split; [exact Hravel|].
  split.
  { intros idx Hidx.
    rewrite item_advantages_array_on by assumption.
    rewrite pstd_exact, np_mean_exact, np_std_exact.
    change (fun v : num exact =>
              sub exact v (Rmean (ravel (raw_advantages self tb))))
      with (fun v : R => v - Rmean (ravel (raw_advantages self tb))).
    rewrite pstd_map_sub. reflexivity. }
  intros _ Heps.
  rewrite np_mean_exact, !np_std_exact, Hravel.
  split; [apply mean_normalize|].
  pose proof (pstd_nonneg (ravel (raw_advantages self tb))) as Hs.
  assert (E : Rpstd (normalize (advantage_normalization_epsilon self)
                       (ravel (raw_advantages self tb)))
              = Rpstd (ravel (raw_advantages self tb))
                / (Rpstd (ravel (raw_advantages self tb))
                   + advantage_normalization_epsilon self)).
  { apply pstd_normalize. lra. }
  split; [exact E|]. rewrite E.
  apply normalized_std_bounds; assumption.
Qed.

Lemma normalization_is_global_witness :
  exists A A' : ndarray exact,
    In (Call_advantage_estimator A)
       (log (snd (build (a2c_task 0%nat true default_epsilon)
                    low_variance_batch))) /\
    In (Call_weight_fn A')
       (log (snd (build (a2c_task 0%nat true default_epsilon)
                    low_variance_batch))) /\
    shape A' = shape A /\
    ravel A'
    = normalize
        (advantage_normalization_epsilon
           (a2c_task 0%nat true default_epsilon))
        (ravel A) /\
    (forall idx,
        in_range idx (shape A) = true ->
        item A' idx
        = (item A idx - np_mean A)
          / (np_std A
             + advantage_normalization_epsilon
                 (a2c_task 0%nat true default_epsilon))) /\
    (ravel A <> [] ->
     0 < advantage_normalization_epsilon
           (a2c_task 0%nat true default_epsilon) ->
     np_mean A' = 0 /\
     np_std A'
     = np_std A
       / (np_std A
          + advantage_normalization_epsilon
              (a2c_task 0%nat true default_epsilon)) /\
     0 <= np_std A' < 1 /\
     1 - np_std A'
     = advantage_normalization_epsilon (a2c_task 0%nat true default_epsilon)
       / (np_std A
          + advantage_normalization_epsilon
              (a2c_task 0%nat true default_epsilon)) /\
     (1 <= np_std A
           + advantage_normalization_epsilon
               (a2c_task 0%nat true default_epsilon) ->
      Rabs (np_std A' - 1)
      <= advantage_normalization_epsilon
           (a2c_task 0%nat true default_epsilon))).
Proof.
  apply (@normalization_is_global (a2c_task 0%nat true default_epsilon)
           low_variance_batch
           (View Observations [1; 2]%nat) (View Actions [1; 2]%nat)
           (View Weights [1; 2]%nat)
           (snd (build (a2c_task 0%nat true default_epsilon)
                   low_variance_batch)));
    reflexivity.
Defined.

Local Close Scope R_scope.

(** ** Constant advantages *)

(** C10, as stated, fails in float64: the mean of a constant array is not
    always the constant.  On advantages [0.1, 0.1, 0.1] with the default
    epsilon and the identity [weight_fn], [policy_batch] returns, but the
    mean is computed as 0.10000000000000002, and every normalised advantage
    and every weight is about -1.39e-12, not 0. *)
Lemma constant_advantages_float64_not_zero :
  advantage_normalization (a2c64 0 true) = true /\
  build (a2c64 0 true) constant_batch64
  = (Ok (View Observations [1; 3], View Actions [1; 3], View Weights [1; 3]),
     snd (build (a2c64 0 true) constant_batch64)) /\
  In (Call_advantage_estimator (raw_advantages (a2c64 0 true) constant_batch64))
     (log (snd (build (a2c64 0 true) constant_batch64))) /\
  ravel (raw_advantages (a2c64 0 true) constant_batch64)
  = [tenth64; tenth64; tenth64] /\
  np_mean (raw_advantages (a2c64 0 true) constant_batch64)
  = 0x1.999999999999bp-4%float /\
  In (Call_weight_fn (advantages_array (a2c64 0 true) constant_batch64))
     (log (snd (build (a2c64 0 true) constant_batch64))) /\
  ravel (advantages_array (a2c64 0 true) constant_batch64)
  = [(-0x1.869ffffffffffp-40)%float; (-0x1.869ffffffffffp-40)%float;
     (-0x1.869ffffffffffp-40)%float] /\
  PrimFloat.is_zero
    (item (advantages_array (a2c64 0 true) constant_batch64) [0; 0])
  = false /\
  PrimFloat.is_zero
    (item (deref (mem (snd (build (a2c64 0 true) constant_batch64)))
             (View Weights [1; 3])) [0; 0])
  = false.
Proof.
  split; [reflexivity|]. split; [reflexivity|].
  split; [apply (log_final_estimator (a2c64 0 true) constant_batch64 1 3)|].
  split; [reflexivity|]. split; [reflexivity|].
  split; [apply (log_final_weight_fn (a2c64 0 true) constant_batch64 1 3)|].
  repeat split.
Qed.

(** A batch of a single element is normalised to exactly 0 in float64
    too. *)
Example single_element_float64 :
  ravel (advantages_array (a2c64 0 true)
           (batch_with (full (N := binary64) [1; 1] tenth64)
                       (full (N := binary64) [1; 1] 1%float)))
  = [0%float].
Proof. reflexivity. Qed.

Local Open Scope R_scope.

(** C10, amended.  In exact arithmetic, with
    [advantage_normalization=True], a positive epsilon and an estimator that
    returns a constant array (zero variance; for instance a batch of a
    single element), [policy_batch] does not fail on a valid batch: the
    denominator [std + epsilon] is not 0 (the standard deviation of a
    non-empty constant array is 0), every normalised advantage is exactly 0,
    and with the identity [weight_fn] every weight is 0. *)
Theorem constant_advantages_give_zero_weights (self : PolicyTrainTask exact)
    (tb : TrajectoryNp exact) B T k ro ra (c : R) :
  shape (observations tb) = B :: T :: ro ->
  shape (actions tb) = B :: T :: ra ->
  shape (mask tb) = [B; T]%nat ->
  shape (value_fn self tb) = [B; T]%nat ->
  shape (raw_advantages self tb) = [B; k]%nat ->
  (k <= T)%nat ->
  advantage_normalization self = true ->
  0 < advantage_normalization_epsilon self ->
  (forall x, weight_fn self x = x) ->
  (forall idx,
      in_range idx [B; k]%nat = true ->
      item (raw_advantages self tb) idx = c) ->
  exists o a w s',
    build self tb = (Ok (o, a, w), s') /\
    (exists A : ndarray exact,
        In (Call_advantage_estimator A) (log s') /\
        (ravel A <> [] -> np_std A = 0) /\
        np_std A + advantage_normalization_epsilon self <> 0) /\
    (exists A' : ndarray exact,
        In (Call_weight_fn A') (log s') /\
        forall idx, in_range idx [B; k]%nat = true -> item A' idx = 0) /\
    (forall i t,
        in_range [i; t]%nat [B; k]%nat = true ->
        item (deref (mem s') w) [i; t]%nat = 0).
Proof.
  intros Ho Ha Hm Hv Hadv Hk Hon Heps Hid Hconst.
  assert (Hacc : accepted self tb B T k ro ra).
  { constructor; auto.
    rewrite Hid, shape_advantages_array, <- shape_raw_advantages, Hadv.
    apply broadcast_shapes_same. }
  assert (Hall : Forall (fun x => x = c) (ravel (raw_advantages self tb))).
  { apply ravel_constant. rewrite Hadv. exact Hconst. }
  assert (Hstd : Rpstd (ravel (raw_advantages self tb)) = 0)
    by (apply (pstd_constant Hall)).
  assert (Hzero : forall idx, in_range idx [B; k]%nat = true ->
                              item (advantages_array self tb) idx = 0).
  { intros idx Hidx.
    rewrite item_advantages_array_on;
      [| exact Hon | rewrite <- shape_raw_advantages, Hadv; exact Hidx].
    rewrite np_mean_exact, (@mean_constant c); [| | exact Hall].
    - rewrite (Hconst idx Hidx). real_goal. unfold Rdiv. ring.
    - apply (@ravel_nonempty exact (raw_advantages self tb) idx).
      rewrite Hadv. exact Hidx. }
  eexists _, _, _, _. split; [apply (build_accepted Hacc)|].
  cbn [mem log]. split; [|split].
  - exists (raw_advantages self tb).
    split; [apply log_final_estimator|].
    rewrite np_std_exact, Hstd.
    split; [intros _; reflexivity|]. lra.
  - exists (advantages_array self tb).
    split; [apply log_final_weight_fn | exact Hzero].
  - intros i t Hit.
    assert (Hlt : (i < B /\ t < k)%nat) by (apply in_range_2; exact Hit).
    destruct Hlt as [Hi Ht].
    rewrite item_weights by assumption.
    rewrite Hid.
    rewrite bidx_in_range
      by (rewrite shape_advantages_array, <- shape_raw_advantages, Hadv;
          exact Hit).
    rewrite (Hzero _ Hit). real_goal. ring.
Qed.

Lemma constant_advantages_give_zero_weights_witness :
  exists o a w s',
    build (a2c_task 0%nat true default_epsilon) one_step_batch
    = (Ok (o, a, w), s') /\
    (exists A : ndarray exact,
        In (Call_advantage_estimator A) (log s') /\
        (ravel A <> [] -> np_std A = 0) /\
        np_std A
        + advantage_normalization_epsilon
            (a2c_task 0%nat true default_epsilon) <> 0) /\
    (exists A' : ndarray exact,
        In (Call_weight_fn A') (log s') /\
        forall idx, in_range idx [1; 1]%nat = true -> item A' idx = 0) /\
    (forall i t,
        in_range [i; t]%nat [1; 1]%nat = true ->
        item (deref (mem s') w) [i; t]%nat = 0).
Proof.
  apply (@constant_advantages_give_zero_weights
           (a2c_task 0%nat true default_epsilon)
           one_step_batch 1%nat 1%nat 1%nat [] [] (7 - 0));
    try reflexivity; try (simpl; lia).
  simpl. unfold default_epsilon. lra.
Defined.

Local Close Scope R_scope.

(** ** Further properties *)

(** Observations with fewer than two axes: the unpacking of line 110 raises
    [ValueError] before anything is called or computed. *)
Theorem short_observations_fail_first {N} (self : PolicyTrainTask N)
    (tb : TrajectoryNp N) :
  length (shape (observations tb)) < 2 ->
  exists s',
    build self tb = (Raise ValueError, s') /\ log s' = [] /\ mem s' = load tb.
Proof.
  intros H. exists (enter tb). split; [|split; reflexivity].
  apply unpack_fails_first, H.
Qed.

Lemma short_observations_fail_first_witness :
  exists s',
    build (a2c64 0 true) flat_batch = (Raise ValueError, s') /\
    log s' = [] /\ mem s' = load flat_batch.
Proof.
  apply (@short_observations_fail_first binary64 (a2c64 0 true) flat_batch).
  simpl. lia.
Defined.

(** On writable float arrays and within the documented ranks the only error is the
    bare assertion error. *)
Theorem only_assertions_within_contract {N} (self : PolicyTrainTask N)
    (tb : TrajectoryNp N) e s' :
  2 <= length (shape (observations tb)) ->
  2 <= length (shape (raw_advantages self tb)) ->
  (forall x, shape (weight_fn self x) = shape x) ->
  build self tb = (Raise e, s') ->
  e = AssertionError [].
Proof. apply errors_within_contract. Qed.

Lemma only_assertions_within_contract_witness :
  AssertionError [] = AssertionError [].
Proof.
  apply (@only_assertions_within_contract binary64 (a2c64 0 true)
           mismatched_batch (AssertionError []) (enter mismatched_batch)).
  - simpl. lia.
  - simpl. lia.
  - intros x. reflexivity.
  - reflexivity.
Defined.

(** In exact arithmetic, the entropy metric of a distribution whose entropy
    is [h] at every timestep is [h], whatever stands in for actions and
    weights. *)
Theorem entropy_metric_of_constant_entropy (policy_dist : Distribution exact)
    (policy_inputs : ndarray exact) (h : R) (A W : Type) (actions_ : A)
    (weights_ : W) :
  ravel (entropy policy_dist policy_inputs) <> [] ->
  (forall idx,
      in_range idx (shape (entropy policy_dist policy_inputs)) = true ->
      item (entropy policy_dist policy_inputs) idx = h) ->
  entropy_metric policy_dist policy_inputs actions_ weights_ = h.
Proof.
  intros Hne Hc.
  apply (entropy_metric_constant policy_dist policy_inputs Hne Hc).
Qed.

Lemma entropy_metric_of_constant_entropy_witness :
  entropy_metric uniform4 (full (N := exact) [2; 3; 4] 0%R) (@None nat) tt
  = ln 4.
Proof.
  apply (@entropy_metric_of_constant_entropy uniform4
           (full (N := exact) [2; 3; 4] 0%R) (ln 4) (option nat) unit None
           tt).
  - simpl. discriminate.
  - intros idx _. reflexivity.
Defined.

(** Behavioural cloning ([weight_fn(_) = 1], a scalar): the scalar is
    broadcast against the trimmed mask, and the weights are [c] times the
    mask. *)
Theorem scalar_weight_is_broadcast {N} (self : PolicyTrainTask N)
    (tb : TrajectoryNp N) B T k ro ra (c : num N) :
  shape (observations tb) = B :: T :: ro ->
  shape (actions tb) = B :: T :: ra ->
  shape (mask tb) = [B; T] ->
  shape (value_fn self tb) = [B; T] ->
  shape (raw_advantages self tb) = [B; k] ->
  k <= T ->
  (forall x, weight_fn self x = scalar c) ->
  exists o a w s',
    build self tb = (Ok (o, a, w), s') /\
    vshape w = [B; k] /\
    forall i t,
      in_range [i; t] [B; k] = true ->
      item (deref (mem s') w) [i; t] = mul N c (item (mask tb) [i; t]).
Proof.
  intros Ho Ha Hm Hv Hadv Hk Hw.
  assert (Hacc : accepted self tb B T k ro ra).
  { constructor; auto. rewrite Hw. apply broadcast_shapes_scalar. }
  eexists _, _, _, _. split; [apply (build_accepted Hacc)|].
  split; [reflexivity|].
  intros i t Hit.
  assert (Hlt : i < B /\ t < k) by (apply in_range_2; exact Hit).
  destruct Hlt as [Hi Ht].
  cbn [mem]. rewrite item_weights by assumption.
  rewrite Hw. reflexivity.
Qed.

Lemma scalar_weight_is_broadcast_witness :
  exists o a w s',
    build (cloning_task (N := binary64) 1%float default_epsilon64)
      masked_batch64 = (Ok (o, a, w), s') /\
    vshape w = [1; 2] /\
    forall i t,
      in_range [i; t] [1; 2] = true ->
      item (deref (mem s') w) [i; t]
      = PrimFloat.mul 1%float (item (mask masked_batch64) [i; t]).
Proof.
  apply (@scalar_weight_is_broadcast binary64
           (cloning_task (N := binary64) 1%float default_epsilon64)
           masked_batch64 1 2 2 [] [] 1%float);
    try reflexivity; simpl; lia.
Defined.

(** On a run that returns, each injected function has been called exactly
    once, [value_fn] first, then the advantage estimator, then [weight_fn];
    the normalisation (mean, [-=], std, [/=]) happens between the estimator
    and [weight_fn], and only when it is switched on; the product with the
    mask comes last. *)
Theorem calls_in_order {N} (self : PolicyTrainTask N) (tb : TrajectoryNp N)
    o a w s' :
  build self tb = (Ok (o, a, w), s') ->
  exists A A' M,
    rev (log s')
    = [Call_value_fn; Call_advantage_estimator A]
      ++ (if advantage_normalization self
          then [Arith_mean; Arith_isub; Arith_std; Arith_idiv]
          else [])
      ++ [Call_weight_fn A'; Arith_multiply (weight_fn self A') M].
Proof.
  intros H. apply build_ok_inv in H.
  destruct H as (B & T & k & ro & ra & _ & _ & _ & _ & ->).
  exists (raw_advantages self tb), (advantages_array self tb),
    (mask_trimmed self tb B k).
  cbn [log]. unfold log_final, log_normalized, log_estimate.
  destruct (advantage_normalization self); reflexivity.
Qed.

Lemma calls_in_order_witness :
  exists A A' M,
    rev (log (snd (build (a2c64 2 true) margin_batch)))
    = [Call_value_fn; Call_advantage_estimator A]
      ++ (if advantage_normalization (a2c64 2 true)
          then [Arith_mean; Arith_isub; Arith_std; Arith_idiv]
          else [])
      ++ [Call_weight_fn A';
          Arith_multiply (weight_fn (a2c64 2 true) A') M].
Proof.
  apply (@calls_in_order binary64 (a2c64 2 true) margin_batch
           (View Observations [4; 3; 6]) (View Actions [4; 3])
           (View Weights [4; 3])
           (snd (build (a2c64 2 true) margin_batch))).
  reflexivity.
Defined.


(** ** Where a call fails, and what it leaves behind *)

Section Failures.

Context {N : arithmetic}.
Variable self : PolicyTrainTask N.
Variable tb : TrajectoryNp N.

(** On writable float arrays, [policy_batch] returns exactly on the batches that
    pass its six checks: observations, actions and mask agree on
    [(batch_size, seq_len)], [value_fn] returns that shape, the estimator
    returns [(batch_size, adv_seq_len)] with [adv_seq_len <= seq_len], and
    [weight_fn]'s result broadcasts against [(batch_size, adv_seq_len)] to
    that very shape. *)
Theorem returns_iff_checks_pass :
  (exists o a w s', build self tb = (Ok (o, a, w), s')) <->
  (exists B T k ro ra,
      shape (observations tb) = B :: T :: ro /\
      shape (actions tb) = B :: T :: ra /\
      shape (mask tb) = [B; T] /\
      shape (value_fn self tb) = [B; T] /\
      shape (raw_advantages self tb) = [B; k] /\
      k <= T /\
      broadcast_shapes (shape (weight_fn self (advantages_array self tb)))
        [B; k] = Some [B; k]).
Proof.
  split.
  - intros (o & a & w & s' & H). apply build_ok_inv in H.
    destruct H as (B & T & k & ro & ra & [Ho Ha Hm Hv Hadv Hk Hw] & _).
    exists B, T, k, ro, ra. auto 10.
  - intros (B & T & k & ro & ra & Ho & Ha & Hm & Hv & Hadv & Hk & Hw).
    eexists _, _, _, _. apply (@build_accepted N self tb B T k ro ra).
    constructor; assumption.
Qed.

(** A [value_fn] whose result does not have shape [(batch_size, seq_len)]
    makes the call fail with the assertion error of line 115, after
    [value_fn] has been called and before the advantage estimator is: the
    batch is as it was. *)
Theorem wrong_values_fail_before_estimator (B T : nat) :
  firstn 2 (shape (observations tb)) = [B; T] ->
  firstn 2 (shape (actions tb)) = [B; T] ->
  shape (mask tb) = [B; T] ->
  shape (value_fn self tb) <> [B; T] ->
  exists s',
    build self tb = (Raise (AssertionError []), s') /\
    log s' = [Call_value_fn] /\
    batch_after s' = tb.
Proof.
  intros Ho Ha Hm Hv.
  pose proof (build_outcome self tb) as Hout.
  destruct Hout as
    [B' T' k' ro' ra' [Ho' Ha' Hm' Hv' Hadv' Hk' Hw']
    | Hno
    | B' T' Hob Hac
    | B' T' Hob Hac Hma
    | B' T' (Hob & Hac & Hma) Hva
    | B' T' ((Hob & Hac & Hma) & Hva) Hnth
    | B' T' k' ((Hob & Hac & Hma) & Hva) Hnth Hlt
    | B' T' k' ((Hob & Hac & Hma) & Hva) Hnth Hle Hne
    | B' T' k' (((Hob & Hac & Hma) & Hva) & Hle & Had) Hbc
    | B' T' k' s (((Hob & Hac & Hma) & Hva) & Hle & Had) Hbc Hne ];
    try (exfalso; congruence).
  eexists. split; [reflexivity|]. split; reflexivity.
Qed.

(** An estimator whose result is not of shape [(batch_size, k)] with
    [k <= seq_len] makes the call fail before the normalisation: with an
    [IndexError] at [advantages.shape[1]] when the result has fewer than
    two axes, with the assertion error of line 132 or 133 otherwise.
    Nothing has been computed on arrays by then, and the batch is as it
    was, also when the result shares memory with it. *)
Theorem wrong_advantages_fail_before_normalization (B T : nat) :
  firstn 2 (shape (observations tb)) = [B; T] ->
  firstn 2 (shape (actions tb)) = [B; T] ->
  shape (mask tb) = [B; T] ->
  shape (value_fn self tb) = [B; T] ->
  (forall k, k <= T -> shape (raw_advantages self tb) <> [B; k]) ->
  exists e s',
    build self tb = (Raise e, s') /\
    (length (shape (raw_advantages self tb)) < 2 -> e = IndexError) /\
    (2 <= length (shape (raw_advantages self tb)) ->
     e = AssertionError []) /\
    log s' = [Call_advantage_estimator (raw_advantages self tb);
              Call_value_fn] /\
    batch_after s' = tb.
Proof.
  intros Ho Ha Hm Hv Hbad.
  pose proof (build_outcome self tb) as Hout.
  destruct Hout as
    [B' T' k' ro' ra' [Ho' Ha' Hm' Hv' Hadv' Hk' Hw']
    | Hno
    | B' T' Hob Hac
    | B' T' Hob Hac Hma
    | B' T' (Hob & Hac & Hma) Hva
    | B' T' ((Hob & Hac & Hma) & Hva) Hnth
    | B' T' k' ((Hob & Hac & Hma) & Hva) Hnth Hlt
    | B' T' k' ((Hob & Hac & Hma) & Hva) Hnth Hle Hne
    | B' T' k' (((Hob & Hac & Hma) & Hva) & Hle & Had) Hbc
    | B' T' k' s (((Hob & Hac & Hma) & Hva) & Hle & Had) Hbc Hne ];
    try (exfalso; congruence).
  - exfalso. rewrite Ho' in Ho. cbn in Ho.
    assert (B' = B) by congruence. assert (T' = T) by congruence. subst.
    exact (Hbad k' Hk' Hadv').
  - eexists _, _. split; [reflexivity|].
    rewrite shape_raw_advantages.
    apply nth_error_None in Hnth.
    split; [reflexivity|]. split; [intros H2; exfalso; lia|].
    split; [reflexivity|]. apply batch_of_mem_estimate.
  - eexists _, _. split; [reflexivity|].
    rewrite shape_raw_advantages.
    assert (Hlen : 1 < length (vshape (advantages_ref self tb))).
    { apply nth_error_Some. rewrite Hnth. discriminate. }
    split; [intros H2; exfalso; lia|]. split; [reflexivity|].
    split; [reflexivity|]. apply batch_of_mem_estimate.
  - eexists _, _. split; [reflexivity|].
    rewrite shape_raw_advantages.
    assert (Hlen : 1 < length (vshape (advantages_ref self tb))).
    { apply nth_error_Some. rewrite Hnth. discriminate. }
    split; [intros H2; exfalso; lia|]. split; [reflexivity|].
    split; [reflexivity|]. apply batch_of_mem_estimate.
  - exfalso. assert (B' = B) by congruence. assert (T' = T) by congruence.
    subst. exact (Hbad k' Hle Had).
  - exfalso. assert (B' = B) by congruence. assert (T' = T) by congruence.
    subst. exact (Hbad k' Hle Had).
Qed.

(** A [weight_fn] whose result does not broadcast against
    [(batch_size, adv_seq_len)] to that shape makes the call fail at the
    product (a [ValueError]) or at the assertion of line 144, after the
    normalisation: the advantages array stays normalised, and so does the
    field of the batch it shares memory with, if any. *)
Theorem wrong_weights_fail_after_normalization (B T k : nat) :
  firstn 2 (shape (observations tb)) = [B; T] ->
  firstn 2 (shape (actions tb)) = [B; T] ->
  shape (mask tb) = [B; T] ->
  shape (value_fn self tb) = [B; T] ->
  shape (raw_advantages self tb) = [B; k] ->
  k <= T ->
  broadcast_shapes (shape (weight_fn self (advantages_array self tb))) [B; k]
  <> Some [B; k] ->
  exists e s',
    build self tb = (Raise e, s') /\
    (broadcast_shapes (shape (weight_fn self (advantages_array self tb)))
       [B; k] = None -> e = ValueError) /\
    (broadcast_shapes (shape (weight_fn self (advantages_array self tb)))
       [B; k] <> None -> e = AssertionError []) /\
    In (Call_weight_fn (advantages_array self tb)) (log s') /\
    (advantage_normalization self = true -> In Arith_idiv (log s')) /\
    deref (mem s') (advantages_ref self tb) = advantages_array self tb /\
    batch_after s' = batch_of (mem_normalized self tb).
Proof.
  intros Ho Ha Hm Hv Hadv Hk Hbad.
  assert (Hidiv : forall B0 k0,
             advantage_normalization self = true ->
             In Arith_idiv (log_final self tb B0 k0)).
  { intros B0 k0 Hon. unfold log_final, log_normalized. rewrite Hon.
    right. right. left. reflexivity. }
  pose proof (build_outcome self tb) as Hout.
  destruct Hout as
    [B' T' k' ro' ra' [Ho' Ha' Hm' Hv' Hadv' Hk' Hw']
    | Hno
    | B' T' Hob Hac
    | B' T' Hob Hac Hma
    | B' T' (Hob & Hac & Hma) Hva
    | B' T' ((Hob & Hac & Hma) & Hva) Hnth
    | B' T' k' ((Hob & Hac & Hma) & Hva) Hnth Hlt
    | B' T' k' ((Hob & Hac & Hma) & Hva) Hnth Hle Hne
    | B' T' k' (((Hob & Hac & Hma) & Hva) & Hle & Had) Hbc
    | B' T' k' s (((Hob & Hac & Hma) & Hva) & Hle & Had) Hbc Hne ];
    try (exfalso; congruence).
  - exfalso. rewrite shape_raw_advantages in Hadv.
    assert (B' = B) by congruence. assert (k' = k) by congruence.
    subst. exact (Hbad Hw').
  - exfalso. rewrite shape_raw_advantages in Hadv.
    rewrite Hadv in Hnth. discriminate.
  - exfalso. rewrite shape_raw_advantages in Hadv.
    rewrite Hadv in Hnth. cbn in Hnth.
    assert (T' = T) by congruence. assert (k' = k) by congruence. lia.
  - exfalso. rewrite shape_raw_advantages in Hadv.
    rewrite Hadv in Hnth. cbn in Hnth.
    assert (B' = B) by congruence. assert (k' = k) by congruence.
    subst. exact (Hne Hadv).
  - rewrite shape_raw_advantages in Hadv.
    assert (B' = B) by congruence. assert (k' = k) by congruence. subst.
    eexists _, _. split; [reflexivity|]. cbn [mem log].
    split; [reflexivity|]. split; [intros Hx; exfalso; exact (Hx Hbc)|].
    split; [apply log_final_weight_fn|]. split; [apply Hidiv|].
    split; reflexivity.
  - rewrite shape_raw_advantages in Hadv.
    assert (B' = B) by congruence. assert (k' = k) by congruence. subst.
    eexists _, _. split; [reflexivity|]. cbn [mem log].
    split; [intros Hx; exfalso; congruence|]. split; [reflexivity|].
    split; [apply log_final_weight_fn|]. split; [apply Hidiv|].
    split.
    + unfold advantages_array, deref. f_equal.
      rewrite update_neq; [reflexivity|].
      destruct (advantages_base self tb) as [E|[[] E]]; rewrite E;
        discriminate.
    + unfold batch_after. cbn [mem]. apply batch_of_update_weights.
Qed.

End Failures.

Lemma wrong_values_fail_before_estimator_witness :
  exists s',
    build (flat_values_task default_epsilon64) margin_batch
    = (Raise (AssertionError []), s') /\
    log s' = [Call_value_fn] /\
    batch_after s' = margin_batch.
Proof.
  apply (@wrong_values_fail_before_estimator binary64
           (flat_values_task default_epsilon64) margin_batch 4 5);
    try reflexivity.
  simpl. discriminate.
Defined.

Lemma wrong_advantages_fail_before_normalization_witness :
  exists e s',
    build (flat_advantages_task default_epsilon64) margin_batch
    = (Raise e, s') /\
    (length (shape (raw_advantages (flat_advantages_task default_epsilon64)
                      margin_batch)) < 2 -> e = IndexError) /\
    (2 <= length (shape (raw_advantages
                           (flat_advantages_task default_epsilon64)
                           margin_batch)) ->
     e = AssertionError []) /\
    log s'
    = [Call_advantage_estimator
         (raw_advantages (flat_advantages_task default_epsilon64)
            margin_batch);
       Call_value_fn] /\
    batch_after s' = margin_batch.
Proof.
  apply (@wrong_advantages_fail_before_normalization binary64
           (flat_advantages_task default_epsilon64) margin_batch 4 5);
    try reflexivity.
  intros k _. simpl. discriminate.
Defined.

Lemma wrong_weights_fail_after_normalization_witness :
  exists e s',
    build (reduced_weights_task default_epsilon64) grid_batch64
    = (Raise e, s') /\
    (broadcast_shapes
       (shape (weight_fn (reduced_weights_task default_epsilon64)
                 (advantages_array (reduced_weights_task default_epsilon64)
                    grid_batch64)))
       [2; 3] = None -> e = ValueError) /\
    (broadcast_shapes
       (shape (weight_fn (reduced_weights_task default_epsilon64)
                 (advantages_array (reduced_weights_task default_epsilon64)
                    grid_batch64)))
       [2; 3] <> None -> e = AssertionError []) /\
    In (Call_weight_fn
          (advantages_array (reduced_weights_task default_epsilon64)
             grid_batch64))
       (log s') /\
    (advantage_normalization (reduced_weights_task default_epsilon64) = true ->
     In Arith_idiv (log s')) /\
    deref (mem s')
      (advantages_ref (reduced_weights_task default_epsilon64) grid_batch64)
    = advantages_array (reduced_weights_task default_epsilon64)
        grid_batch64 /\
    batch_after s'
    = batch_of (mem_normalized (reduced_weights_task default_epsilon64)
                  grid_batch64).
Proof.
  apply (@wrong_weights_fail_after_normalization binary64
           (reduced_weights_task default_epsilon64) grid_batch64 2 3 3);
    try reflexivity; try (simpl; lia).
  simpl. discriminate.
Defined.

(** With an estimator that hands back [returns] itself, a call that fails
    at the product has overwritten [returns]: 0 has become about -0.87. *)
Example failed_call_has_normalized_returns :
  fst (build (reduced_weights_task default_epsilon64) grid_batch64)
  = Raise ValueError /\
  item (returns grid_batch64) [0; 0] = 0%float /\
  PrimFloat.ltb
    (item (returns (batch_after
                      (snd (build (reduced_weights_task default_epsilon64)
                              grid_batch64)))) [0; 0])
    (-0.5)%float = true.
Proof. repeat split. Qed.

(** ** Empty batches, shared memory, and what the weights depend on *)

Lemma flat_map_nothing {A B} (l : list A) :
  flat_map (fun _ : A => @nil B) l = [].
Proof. induction l as [|x l IH]; [reflexivity | exact IH]. Qed.

(** A shape with an axis of length 0 has no entries. *)
Lemma indices_empty (s : list nat) : In 0 s -> indices s = [].
Proof.
  induction s as [|d s IH]; [intros []|].
  intros [-> | H]; [reflexivity|].
  cbn [indices]. rewrite (IH H). cbn [map]. apply flat_map_nothing.
Qed.

Lemma ravel_empty {N} (a : ndarray N) : In 0 (shape a) -> ravel a = [].
Proof. intros H. unfold ravel. rewrite (indices_empty _ H). reflexivity. Qed.

Section Frame.

Context {N : arithmetic}.
Variable self : PolicyTrainTask N.

(** An empty batch is not an error: when [batch_size] is 0, or when the
    estimator returns no timestep ([adv_seq_len] 0, a margin as long as the
    sequence), [policy_batch] returns observations, actions and weights
    without entries; with normalisation on, the mean and standard deviation
    of no entries are computed and used on no entry. *)
Theorem empty_advantages_give_empty_weights (tb : TrajectoryNp N)
    (B T k : nat) (ro ra : list nat) :
  shape (observations tb) = B :: T :: ro ->
  shape (actions tb) = B :: T :: ra ->
  shape (mask tb) = [B; T] ->
  shape (value_fn self tb) = [B; T] ->
  shape (raw_advantages self tb) = [B; k] ->
  k <= T ->
  broadcast_shapes (shape (weight_fn self (advantages_array self tb))) [B; k]
  = Some [B; k] ->
  B = 0 \/ k = 0 ->
  exists o a w s',
    build self tb = (Ok (o, a, w), s') /\
    ravel (deref (mem s') o) = [] /\
    ravel (deref (mem s') a) = [] /\
    ravel (deref (mem s') w) = [] /\
    (advantage_normalization self = true -> In Arith_mean (log s')).
Proof.
  intros Ho Ha Hm Hv Hadv Hk Hw Hz.
  assert (Hacc : accepted self tb B T k ro ra) by (constructor; assumption).
  eexists _, _, _, _. split; [apply (build_accepted Hacc)|].
  cbn [mem log].
  assert (H0 : forall r, In 0 (B :: k :: r))
    by (intros r; destruct Hz as [-> | ->]; cbn; auto).
  split; [apply ravel_empty, H0|].
  split; [apply ravel_empty, H0|].
  split; [apply ravel_empty, H0|].
  intros Hon. unfold log_final, log_normalized. rewrite Hon.
  do 2 right. cbn. auto.
Qed.

(** The returned observations and actions are views of the batch's own
    arrays (basic slicing makes no copy); the weights are a newly allocated
    array, which shares memory neither with the batch nor with the
    advantages. *)
Theorem outputs_are_views_of_the_batch (tb : TrajectoryNp N) o a w s' :
  build self tb = (Ok (o, a, w), s') ->
  base o = Observations /\
  base a = Actions /\
  base w = Weights /\
  base (advantages_ref self tb) <> Weights /\
  mem s' Observations = observations tb /\
  mem s' Actions = actions tb.
Proof.
  intros H. apply build_ok_inv in H.
  destruct H as (B & T & k & ro & ra & Hacc & -> & -> & -> & ->).
  cbn [base mem].
  repeat (split; [reflexivity|]).
  split.
  - destruct (advantages_base self tb) as [E|[[] E]]; rewrite E; discriminate.
  - split.
    + apply (mem_final_frame self tb B k (n := Observations)). auto.
    + apply (mem_final_frame self tb B k (n := Actions)). auto.
Qed.

(** *** What the weights depend on *)

Section SameInputs.

Variables tb1 tb2 : TrajectoryNp N.
Hypothesis same_rewards : rewards tb2 = rewards tb1.
Hypothesis same_returns : returns tb2 = returns tb1.
Hypothesis same_dones : dones tb2 = dones tb1.
Hypothesis same_values : value_fn self tb2 = value_fn self tb1.

Lemma the_estimate_same : the_estimate self tb2 = the_estimate self tb1.
Proof.
  unfold the_estimate.
  rewrite same_rewards, same_returns, same_dones, same_values. reflexivity.
Qed.

Lemma arg_cell_same (x : est_arg) :
  mem_values self tb2 (arg_cell x) = mem_values self tb1 (arg_cell x).
Proof.
  unfold mem_values. destruct x; cbn.
  - exact same_rewards.
  - exact same_returns.
  - exact same_dones.
  - exact same_values.
Qed.

Lemma advantages_ref_same : advantages_ref self tb2 = advantages_ref self tb1.
Proof.
  unfold advantages_ref. rewrite the_estimate_same.
  destruct (the_estimate self tb1) as [x|x k]; [reflexivity|].
  unfold estimate_ref. rewrite arg_cell_same. reflexivity.
Qed.

Lemma advantages_cell_same :
  mem_estimate self tb2 (base (advantages_ref self tb1))
  = mem_estimate self tb1 (base (advantages_ref self tb1)).
Proof.
  unfold mem_estimate, advantages_ref. rewrite the_estimate_same.
  destruct (the_estimate self tb1) as [x|x k].
  - cbn [estimate_ref base]. rewrite !update_eq. reflexivity.
  - cbn [estimate_ref base]. apply arg_cell_same.
Qed.

(** The advantages as the estimator returned them, and as [weight_fn]
    receives them, are the same on both batches. *)
Lemma raw_advantages_same : raw_advantages self tb2 = raw_advantages self tb1.
Proof.
  unfold raw_advantages. rewrite advantages_ref_same. unfold deref.
  rewrite advantages_cell_same. reflexivity.
Qed.

Lemma advantages_array_same :
  advantages_array self tb2 = advantages_array self tb1.
Proof.
  unfold advantages_array. rewrite advantages_ref_same. unfold deref.
  f_equal. unfold mem_normalized.
  destruct (advantage_normalization self);
    [|rewrite advantages_cell_same; reflexivity].
  unfold scaled, centred. rewrite advantages_ref_same.
  rewrite !update_eq. unfold deref. cbn [base vshape shape item].
  rewrite !update_eq. rewrite advantages_cell_same. reflexivity.
Qed.

End SameInputs.

(** [policy_batch] uses the observations and the actions of the batch only
    through their shapes, and the mask only through its shape and its first
    [adv_seq_len] timesteps.  Of two batches with the same rewards, returns
    and dones, on which [value_fn] returns the same values, with
    observations, actions and masks of the same shapes and masks that agree
    on the first [adv_seq_len] timesteps: if the call returns on the one, it
    returns on the other, [weight_fn] is applied to the same advantages
    (the normalisation does not look at the mask), and the weights are the
    same. *)
Theorem weights_depend_on_shapes_and_mask_prefix (tb1 tb2 : TrajectoryNp N)
    o a w s1 :
  rewards tb2 = rewards tb1 ->
  returns tb2 = returns tb1 ->
  dones tb2 = dones tb1 ->
  value_fn self tb2 = value_fn self tb1 ->
  shape (observations tb2) = shape (observations tb1) ->
  shape (actions tb2) = shape (actions tb1) ->
  shape (mask tb2) = shape (mask tb1) ->
  build self tb1 = (Ok (o, a, w), s1) ->
  (forall i t,
      in_range [i; t] (vshape w) = true ->
      item (mask tb2) [i; t] = item (mask tb1) [i; t]) ->
  exists s2,
    build self tb2 = (Ok (o, a, w), s2) /\
    (exists A, In (Call_weight_fn A) (log s1) /\
               In (Call_weight_fn A) (log s2)) /\
    shape (deref (mem s2) w) = shape (deref (mem s1) w) /\
    forall i t,
      in_range [i; t] (vshape w) = true ->
      item (deref (mem s2) w) [i; t] = item (deref (mem s1) w) [i; t].
Proof.
  intros Hr Hrt Hd Hv Hso Hsa Hsm H Hmask.
  apply build_ok_inv in H.
  destruct H as (B & T & k & ro & ra & Hacc & -> & -> & -> & ->).
  destruct Hacc as [Ho Ha Hm Hval Hadv Hk Hw].
  pose proof (@advantages_ref_same tb1 tb2 Hr Hrt Hd Hv) as Eref.
  pose proof (@advantages_array_same tb1 tb2 Hr Hrt Hd Hv) as Earr.
  assert (Hacc2 : accepted self tb2 B T k ro ra).
  { constructor; congruence. }
  exists (State (mem_final self tb2 B k) (log_final self tb2 B k)).
  split; [apply (build_accepted Hacc2)|].
  cbn [mem log vshape] in *.
  split.
  { exists (advantages_array self tb1).
    split; [apply log_final_weight_fn|].
    rewrite <- Earr. apply log_final_weight_fn. }
  split; [reflexivity|].
  intros i t Hit.
  assert (Hlt : i < B /\ t < k) by (apply in_range_2; exact Hit).
  destruct Hlt as [Hi Ht].
  rewrite !item_weights by assumption.
  rewrite Earr, (Hmask i t Hit). reflexivity.
Qed.

End Frame.

Lemma empty_advantages_give_empty_weights_witness :
  exists o a w s',
    build (a2c64 5 true) margin_batch = (Ok (o, a, w), s') /\
    ravel (deref (mem s') o) = [] /\
    ravel (deref (mem s') a) = [] /\
    ravel (deref (mem s') w) = [] /\
    (advantage_normalization (a2c64 5 true) = true ->
     In Arith_mean (log s')).
Proof.
  apply (@empty_advantages_give_empty_weights binary64 (a2c64 5 true)
           margin_batch 4 5 0 [6] []);
    try reflexivity; simpl; lia.
Defined.

Lemma outputs_are_views_of_the_batch_witness :
  base (View Observations [4; 3; 6]) = Observations /\
  base (View Actions [4; 3]) = Actions /\
  base (View Weights [4; 3]) = Weights /\
  base (advantages_ref (a2c64 2 true) margin_batch) <> Weights /\
  mem (snd (build (a2c64 2 true) margin_batch)) Observations
  = observations margin_batch /\
  mem (snd (build (a2c64 2 true) margin_batch)) Actions
  = actions margin_batch.
Proof.
  apply (@outputs_are_views_of_the_batch binary64 (a2c64 2 true)
           margin_batch (View Observations [4; 3; 6]) (View Actions [4; 3])
           (View Weights [4; 3])
           (snd (build (a2c64 2 true) margin_batch))).
  reflexivity.
Defined.

Lemma weights_depend_on_shapes_and_mask_prefix_witness :
  exists s2,
    build (a2c64 2 true)
      (with_inputs margin_batch (full (N := binary64) [4; 5; 6] 1%float)
         (full (N := binary64) [4; 5] 1%float) padded_mask64)
    = (Ok (View Observations [4; 3; 6], View Actions [4; 3],
           View Weights [4; 3]), s2) /\
    (exists A,
        In (Call_weight_fn A)
           (log (snd (build (a2c64 2 true) margin_batch))) /\
        In (Call_weight_fn A) (log s2)) /\
    shape (deref (mem s2) (View Weights [4; 3]))
    = shape (deref (mem (snd (build (a2c64 2 true) margin_batch)))
               (View Weights [4; 3])) /\
    forall i t,
      in_range [i; t] (vshape (View Weights [4; 3])) = true ->
      item (deref (mem s2) (View Weights [4; 3])) [i; t]
      = item (deref (mem (snd (build (a2c64 2 true) margin_batch)))
                (View Weights [4; 3])) [i; t].
Proof.
  apply (@weights_depend_on_shapes_and_mask_prefix binary64 (a2c64 2 true)
           margin_batch
           (with_inputs margin_batch (full (N := binary64) [4; 5; 6] 1%float)
              (full (N := binary64) [4; 5] 1%float) padded_mask64)
           (View Observations [4; 3; 6]) (View Actions [4; 3])
           (View Weights [4; 3])
           (snd (build (a2c64 2 true) margin_batch)));
    try reflexivity.
  intros i t Hit. apply in_range_2 in Hit. destruct Hit as [_ Ht].
  apply Nat.ltb_lt in Ht.
  change ((if t <? 3 then 1%float else 0%float) = 1%float).
  rewrite Ht. reflexivity.
Defined.

(** ** The normalisation as a map on the advantages (exact arithmetic) *)

Section Normalisation.

Local Open Scope R_scope.

Lemma Rsum_map_add (c : R) (l : list R) :
  Rsum (map (fun x => x + c) l) = Rsum l + INR (length l) * c.
Proof.
  induction l as [|x l IH]; [simpl; lra|].
  change (Rsum (map (fun x => x + c) (x :: l)))
    with ((x + c) + Rsum (map (fun x => x + c) l)).
  change (Rsum (x :: l)) with (x + Rsum l).
  rewrite IH. change (length (x :: l)) with (S (length l)).
  rewrite S_INR. lra.
Qed.

Lemma mean_map_add (c : R) (l : list R) :
  l <> [] -> Rmean (map (fun x => x + c) l) = Rmean l + c.
Proof.
  intros Hl. unfold Rmean. rewrite Rsum_map_add, length_map.
  pose proof (INR_length_pos Hl). field. lra.
Qed.

Lemma pstd_map_add (c : R) (l : list R) :
  Rpstd (map (fun x => x + c) l) = Rpstd l.
Proof.
  rewrite <- (pstd_map_sub (- c) l). f_equal.
  apply map_ext. intros x. lra.
Qed.

(** An entry of a list of non-negative numbers is at most their sum. *)
Lemma Rsum_ge_entry (f : R -> R) (l : list R) (x : R) :
  (forall y, 0 <= f y) -> In x l -> f x <= Rsum (map f l).
Proof.
  intros Hf. induction l as [|y l IH]; [intros []|].
  assert (H0 : 0 <= Rsum (map f l)).
  { clear IH. induction l as [|z l IH]; simpl; [lra|].
    pose proof (Hf z). lra. }
  intros [-> | Hin]; simpl.
  - lra.
  - pose proof (Hf y). pose proof (IH Hin). lra.
Qed.

(** The squared deviation of an entry from the mean is at most the number
    of entries times the variance. *)
Lemma deviation_bound (l : list R) (x : R) :
  In x l -> Rsqr (x - Rmean l) <= INR (length l) * Rsqr (Rpstd l).
Proof.
  intros Hin.
  assert (Hl : l <> []) by (intros ->; exact Hin).
  pose proof (INR_length_pos Hl) as Hn.
  pose proof (@Rsum_ge_entry (fun y => Rsqr (y - Rmean l)) l x
                (fun y => Rle_0_sqr _) Hin) as Hsum.
  unfold Rpstd, Rmean at 2. rewrite length_map.
  rewrite Rsqr_sqrt.
  - replace (INR (length l)
             * (Rsum (map (fun y => Rsqr (y - Rmean l)) l) / INR (length l)))
      with (Rsum (map (fun y => Rsqr (y - Rmean l)) l)) by (field; lra).
    exact Hsum.
  - apply Rmult_le_pos; [|left; apply Rinv_0_lt_compat; exact Hn].
    eapply Rle_trans; [apply Rle_0_sqr | exact Hsum].
Qed.

Lemma scale_le (d a b : R) : 0 < d -> (a <= b <-> a * d <= b * d).
Proof.
  intros Hd. split; intros H.
  - apply Rmult_le_compat_r; lra.
  - apply Rmult_le_reg_r with (r := d); assumption.
Qed.

Lemma scale_lt (d a b : R) : 0 < d -> (a < b <-> a * d < b * d).
Proof.
  intros Hd. split; intros H.
  - apply Rmult_lt_compat_r; lra.
  - apply Rmult_lt_reg_r with (r := d); assumption.
Qed.

Lemma affine_order (m d x1 x2 : R) :
  0 < d ->
  (x1 <= x2 <-> (x1 - m) * d <= (x2 - m) * d) /\
  (x1 < x2 <-> (x1 - m) * d < (x2 - m) * d) /\
  (m < x1 <-> 0 < (x1 - m) * d).
Proof.
  intros Hd. split; [|split].
  - rewrite <- (scale_le (x1 - m) (x2 - m) Hd). split; intros H; lra.
  - rewrite <- (scale_lt (x1 - m) (x2 - m) Hd). split; intros H; lra.
  - split; intros H.
    + apply Rmult_lt_0_compat; lra.
    + assert (H0 : 0 < x1 - m); [|lra].
      apply Rmult_lt_reg_r with (r := d); [exact Hd|].
      rewrite Rmult_0_l. exact H.
Qed.

Variable self : PolicyTrainTask exact.
Variable tb : TrajectoryNp exact.

Let eps : R := advantage_normalization_epsilon self.

(** Lines 134-137, entry by entry, in exact arithmetic. *)
Lemma item_normalized_exact (idx : list nat) :
  advantage_normalization self = true ->
  in_range idx (shape (raw_advantages self tb)) = true ->
  item (advantages_array self tb) idx
  = (item (raw_advantages self tb) idx - Rmean (ravel (raw_advantages self tb)))
    / (Rpstd (ravel (raw_advantages self tb)) + eps).
Proof.
  intros Hon Hidx.
  rewrite item_advantages_array_on by assumption.
  rewrite pstd_exact, np_mean_exact.
  change (fun v : num exact =>
            sub exact v (Rmean (ravel (raw_advantages self tb))))
    with (fun v : R => v - Rmean (ravel (raw_advantages self tb))).
  rewrite pstd_map_sub. reflexivity.
Qed.

Lemma item_in_ravel (a : ndarray exact) (idx : list nat) :
  in_range idx (shape a) = true -> In (item a idx) (ravel a).
Proof.
  intros H. unfold ravel. apply in_map, in_indices, H.
Qed.

(** With a positive epsilon the normalisation is an increasing affine map:
    it keeps the order of the advantages, and an advantage is positive
    after it exactly when it was above the mean. *)
Theorem normalization_preserves_order (idx1 idx2 : list nat) :
  advantage_normalization self = true ->
  0 < advantage_normalization_epsilon self ->
  in_range idx1 (shape (raw_advantages self tb)) = true ->
  in_range idx2 (shape (raw_advantages self tb)) = true ->
  (item (raw_advantages self tb) idx1 <= item (raw_advantages self tb) idx2
   <-> item (advantages_array self tb) idx1
       <= item (advantages_array self tb) idx2) /\
  (item (raw_advantages self tb) idx1 < item (raw_advantages self tb) idx2
   <-> item (advantages_array self tb) idx1
       < item (advantages_array self tb) idx2) /\
  (np_mean (raw_advantages self tb) < item (raw_advantages self tb) idx1
   <-> 0 < item (advantages_array self tb) idx1).
Proof.
  intros Hon Heps H1 H2.
  rewrite !item_normalized_exact by assumption.
  rewrite np_mean_exact.
  pose proof (pstd_nonneg (ravel (raw_advantages self tb))) as Hs.
  fold eps in Heps.
  assert (Hd : 0 < / (Rpstd (ravel (raw_advantages self tb)) + eps))
    by (apply Rinv_0_lt_compat; lra).
  unfold Rdiv. apply affine_order. exact Hd.
Qed.

(** With a positive epsilon every normalised advantage is smaller in
    absolute value than the square root of the number of entries
    ([batch_size * adv_seq_len]), whatever the scale of the advantages. *)
Theorem normalized_advantages_are_bounded (idx : list nat) :
  advantage_normalization self = true ->
  0 < advantage_normalization_epsilon self ->
  in_range idx (shape (raw_advantages self tb)) = true ->
  Rsqr (item (advantages_array self tb) idx)
  < INR (length (ravel (raw_advantages self tb))) /\
  Rabs (item (advantages_array self tb) idx)
  < sqrt (INR (length (ravel (raw_advantages self tb)))).
Proof.
  intros Hon Heps Hidx.
  assert (Hsq : Rsqr (item (advantages_array self tb) idx)
                < INR (length (ravel (raw_advantages self tb)))).
  { rewrite item_normalized_exact by assumption.
    pose proof (@deviation_bound _ _ (@item_in_ravel _ _ Hidx)) as Hdev.
    pose proof (pstd_nonneg (ravel (raw_advantages self tb))) as Hs.
    assert (Hn : 0 < INR (length (ravel (raw_advantages self tb)))).
    { apply INR_length_pos.
      apply (@ravel_nonempty exact (raw_advantages self tb) idx Hidx). }
    fold eps in Heps.
    set (s := Rpstd (ravel (raw_advantages self tb))) in *.
    set (n := INR (length (ravel (raw_advantages self tb)))) in *.
    set (x := item (raw_advantages self tb) idx
              - Rmean (ravel (raw_advantages self tb))) in *.
    rewrite Rsqr_div' .
    assert (Hse : 0 < Rsqr (s + eps)) by (apply Rsqr_pos_lt; lra).
    apply Rmult_lt_reg_r with (r := Rsqr (s + eps)); [exact Hse|].
    unfold Rdiv. rewrite Rmult_assoc, Rinv_l by lra. rewrite Rmult_1_r.
    apply Rle_lt_trans with (r2 := n * Rsqr s); [exact Hdev|].
    apply Rmult_lt_compat_l; [exact Hn|].
    unfold Rsqr. nra. }
  split; [exact Hsq|].
  rewrite <- sqrt_Rsqr_abs.
  apply sqrt_lt_1_alt. split; [apply Rle_0_sqr | exact Hsq].
Qed.

End Normalisation.

Section Shift.

Local Open Scope R_scope.

(** The normalisation does not see a shift of the advantages: when the
    advantages of one call are those of another plus a constant (a baseline
    moved by a constant), with the same epsilon, the normalised advantages
    are the same. *)
Theorem normalization_ignores_shift (self1 self2 : PolicyTrainTask exact)
    (tb1 tb2 : TrajectoryNp exact) (c : R) (idx : list nat) :
  advantage_normalization self1 = true ->
  advantage_normalization self2 = true ->
  advantage_normalization_epsilon self2
  = advantage_normalization_epsilon self1 ->
  shape (raw_advantages self2 tb2) = shape (raw_advantages self1 tb1) ->
  (forall i,
      in_range i (shape (raw_advantages self1 tb1)) = true ->
      item (raw_advantages self2 tb2) i
      = item (raw_advantages self1 tb1) i + c) ->
  in_range idx (shape (raw_advantages self1 tb1)) = true ->
  item (advantages_array self2 tb2) idx
  = item (advantages_array self1 tb1) idx.
Proof.
  intros Hon1 Hon2 Heps Hshape Hitem Hidx.
  assert (Hravel : ravel (raw_advantages self2 tb2)
                   = map (fun x => x + c) (ravel (raw_advantages self1 tb1))).
  { unfold ravel. rewrite Hshape, map_map.
    apply map_ext_in. intros i Hi. apply Hitem, in_indices, Hi. }
  assert (Hne : ravel (raw_advantages self1 tb1) <> [])
    by (apply (@ravel_nonempty exact (raw_advantages self1 tb1) idx Hidx)).
  rewrite !item_normalized_exact;
    [| assumption | assumption | assumption | rewrite Hshape; assumption].
  rewrite Hravel, (mean_map_add c Hne), pstd_map_add, Heps.
  rewrite (Hitem idx Hidx).
  f_equal. lra.
Qed.

Lemma Rsum_map_mul (c : R) (l : list R) :
  Rsum (map (fun x => c * x) l) = c * Rsum l.
Proof.
  induction l as [|x l IH]; simpl; [lra|]. rewrite IH. lra.
Qed.

Lemma mean_map_mul (c : R) (l : list R) :
  Rmean (map (fun x => c * x) l) = c * Rmean l.
Proof.
  unfold Rmean. rewrite Rsum_map_mul, length_map. unfold Rdiv. ring.
Qed.

Lemma pstd_map_mul (c : R) (l : list R) :
  0 < c -> Rpstd (map (fun x => c * x) l) = c * Rpstd l.
Proof.
  intros Hc.
  assert (Hi : 0 < / c) by (apply Rinv_0_lt_compat; exact Hc).
  rewrite (map_ext (fun x => c * x) (fun x => x / / c))
    by (intros x; field; lra).
  rewrite (pstd_map_div l Hi). field. lra.
Qed.

(** Epsilon is measured in the unit of the advantages: when the advantages
    of one call are those of another times a positive constant, and so is
    epsilon, the normalised advantages are the same. *)
Theorem normalization_is_scale_free (self1 self2 : PolicyTrainTask exact)
    (tb1 tb2 : TrajectoryNp exact) (c : R) (idx : list nat) :
  advantage_normalization self1 = true ->
  advantage_normalization self2 = true ->
  0 < c ->
  0 < advantage_normalization_epsilon self1 ->
  advantage_normalization_epsilon self2
  = c * advantage_normalization_epsilon self1 ->
  shape (raw_advantages self2 tb2) = shape (raw_advantages self1 tb1) ->
  (forall i,
      in_range i (shape (raw_advantages self1 tb1)) = true ->
      item (raw_advantages self2 tb2) i
      = c * item (raw_advantages self1 tb1) i) ->
  in_range idx (shape (raw_advantages self1 tb1)) = true ->
  item (advantages_array self2 tb2) idx
  = item (advantages_array self1 tb1) idx.
Proof.
  intros Hon1 Hon2 Hc Hpos Heps Hshape Hitem Hidx.
  assert (Hravel : ravel (raw_advantages self2 tb2)
                   = map (fun x => c * x) (ravel (raw_advantages self1 tb1))).
  { unfold ravel. rewrite Hshape, map_map.
    apply map_ext_in. intros i Hi. apply Hitem, in_indices, Hi. }
  rewrite !item_normalized_exact;
    [| assumption | assumption | assumption | rewrite Hshape; assumption].
  rewrite Hravel, mean_map_mul, (pstd_map_mul _ Hc), Heps.
  rewrite (Hitem idx Hidx).
  pose proof (pstd_nonneg (ravel (raw_advantages self1 tb1))) as Hs.
  match goal with |- @eq _ ?x ?y => change (@eq R x y) end.
  field. split; [lra|].
  rewrite <- Rmult_plus_distr_l. apply Rgt_not_eq.
  apply Rmult_lt_0_compat; lra.
Qed.

End Shift.

Local Open Scope R_scope.

Lemma normalization_preserves_order_witness :
  (item (raw_advantages (a2c_task 0%nat true default_epsilon) low_variance_batch)
     [0; 0]%nat
   <= item (raw_advantages (a2c_task 0%nat true default_epsilon)
              low_variance_batch) [0; 1]%nat
   <-> item (advantages_array (a2c_task 0%nat true default_epsilon)
               low_variance_batch) [0; 0]%nat
       <= item (advantages_array (a2c_task 0%nat true default_epsilon)
                  low_variance_batch) [0; 1]%nat) /\
  (item (raw_advantages (a2c_task 0%nat true default_epsilon) low_variance_batch)
     [0; 0]%nat
   < item (raw_advantages (a2c_task 0%nat true default_epsilon)
             low_variance_batch) [0; 1]%nat
   <-> item (advantages_array (a2c_task 0%nat true default_epsilon)
               low_variance_batch) [0; 0]%nat
       < item (advantages_array (a2c_task 0%nat true default_epsilon)
                 low_variance_batch) [0; 1]%nat) /\
  (np_mean (raw_advantages (a2c_task 0%nat true default_epsilon)
              low_variance_batch)
   < item (raw_advantages (a2c_task 0%nat true default_epsilon)
             low_variance_batch) [0; 0]%nat
   <-> 0 < item (advantages_array (a2c_task 0%nat true default_epsilon)
                   low_variance_batch) [0; 0]%nat).
Proof.
  apply (@normalization_preserves_order
           (a2c_task 0%nat true default_epsilon) low_variance_batch
           [0; 0]%nat [0; 1]%nat);
    try reflexivity.
  simpl. unfold default_epsilon. lra.
Defined.

Lemma normalized_advantages_are_bounded_witness :
  (Rsqr (item (advantages_array (a2c_task 0%nat true default_epsilon)
                 low_variance_batch) [0; 1]%nat)
   < INR (length (ravel (raw_advantages (a2c_task 0%nat true default_epsilon)
                           low_variance_batch)))) /\
  (Rabs (item (advantages_array (a2c_task 0%nat true default_epsilon)
                 low_variance_batch) [0; 1]%nat)
   < sqrt (INR (length (ravel (raw_advantages
                                 (a2c_task 0%nat true default_epsilon)
                                 low_variance_batch))))).
Proof.
  apply (@normalized_advantages_are_bounded
           (a2c_task 0%nat true default_epsilon) low_variance_batch [0; 1]%nat);
    try reflexivity.
  simpl. unfold default_epsilon. lra.
Defined.

Lemma normalization_ignores_shift_witness :
  item (advantages_array (a2c_task 0%nat true default_epsilon) shifted_batch)
    [0; 1]%nat
  = item (advantages_array (a2c_task 0%nat true default_epsilon)
            low_variance_batch) [0; 1]%nat.
Proof.
  apply (@normalization_ignores_shift
           (a2c_task 0%nat true default_epsilon)
           (a2c_task 0%nat true default_epsilon)
           low_variance_batch shifted_batch 1 [0; 1]%nat);
    try reflexivity.
  intros i Hi.
  destruct i as [|[|?] [|[|[|?]] [|? ?]]]; cbn in Hi; try discriminate Hi;
    cbn; lra.
Defined.

Lemma normalization_is_scale_free_witness :
  item (advantages_array (a2c_task (N := exact) 0%nat true (2 * default_epsilon))
          doubled_batch) [0; 1]%nat
  = item (advantages_array (a2c_task 0%nat true default_epsilon)
            low_variance_batch) [0; 1]%nat.
Proof.
  apply (@normalization_is_scale_free
           (a2c_task 0%nat true default_epsilon)
           (a2c_task (N := exact) 0%nat true (2 * default_epsilon))
           low_variance_batch doubled_batch 2 [0; 1]%nat);
    try reflexivity; try lra.
  - simpl. unfold default_epsilon. lra.
  - intros i Hi.
    destruct i as [|[|?] [|[|[|?]] [|? ?]]]; cbn in Hi; try discriminate Hi;
      cbn; lra.
Defined.

Local Close Scope R_scope.

(** ** The entropy metric: bounds and the empty batch *)

Section EntropyBounds.

Local Open Scope R_scope.

Lemma Rsum_bounds (lo hi : R) (l : list R) :
  Forall (fun x => lo <= x <= hi) l ->
  INR (length l) * lo <= Rsum l <= INR (length l) * hi.
Proof.
  induction 1 as [|x l Hx _ IH]; [simpl; lra|].
  change (Rsum (x :: l)) with (x + Rsum l).
  change (length (x :: l)) with (S (length l)).
  rewrite S_INR. lra.
Qed.

Lemma mean_bounds (lo hi : R) (l : list R) :
  l <> [] -> Forall (fun x => lo <= x <= hi) l -> lo <= Rmean l <= hi.
Proof.
  intros Hl H. pose proof (INR_length_pos Hl) as Hn.
  pose proof (Rsum_bounds H) as [H1 H2].
  unfold Rmean. split.
  - apply Rmult_le_reg_r with (r := INR (length l)); [exact Hn|].
    unfold Rdiv. rewrite Rmult_assoc, Rinv_l by lra. lra.
  - apply Rmult_le_reg_r with (r := INR (length l)); [exact Hn|].
    unfold Rdiv. rewrite Rmult_assoc, Rinv_l by lra. lra.
Qed.

(** In exact arithmetic the entropy metric lies between the smallest and
    the largest entropy of the batch: when every entry of the distribution's
    entropy is between [lo] and [hi] (0 and [ln K] for a categorical
    distribution over K actions), so is the metric. *)
Theorem entropy_metric_within_bounds (policy_dist : Distribution exact)
    (policy_inputs : ndarray exact) (lo hi : R) (A W : Type) (actions_ : A)
    (weights_ : W) :
  ravel (entropy policy_dist policy_inputs) <> [] ->
  (forall idx,
      in_range idx (shape (entropy policy_dist policy_inputs)) = true ->
      lo <= item (entropy policy_dist policy_inputs) idx <= hi) ->
  lo <= entropy_metric policy_dist policy_inputs actions_ weights_ <= hi.
Proof.
  intros Hne Hb. unfold entropy_metric. rewrite np_mean_exact.
  apply mean_bounds; [exact Hne|].
  apply Forall_forall. intros x Hx. unfold ravel in Hx.
  apply in_map_iff in Hx. destruct Hx as (idx & <- & Hin).
  apply Hb, in_indices, Hin.
Qed.

End EntropyBounds.

Lemma entropy_metric_within_bounds_witness :
  (0 <= entropy_metric uniform4 (full (N := exact) [2; 3; 4]%nat 0%R) tt tt
   <= ln 4)%R.
Proof.
  apply (@entropy_metric_within_bounds uniform4
           (full (N := exact) [2; 3; 4] 0%R) 0%R (ln 4) unit unit tt tt).
  - simpl. discriminate.
  - intros idx _. cbn. split; [|apply Rle_refl].
    rewrite <- ln_1. left. apply ln_increasing; lra.
Defined.

(** On an empty batch (an entropy array without entries) the float64
    entropy metric is nan, the mean of no numbers (0/0): no error is
    raised. *)
Theorem entropy_metric_of_empty_batch_is_nan
    (policy_dist : Distribution binary64) (policy_inputs : ndarray binary64)
    (A W : Type) (actions_ : A) (weights_ : W) :
  ravel (entropy policy_dist policy_inputs) = [] ->
  PrimFloat.is_nan
    (entropy_metric policy_dist policy_inputs actions_ weights_) = true.
Proof.
  intros H. unfold entropy_metric, np_mean, mean. rewrite H. reflexivity.
Qed.

Lemma entropy_metric_of_empty_batch_is_nan_witness :
  PrimFloat.is_nan
    (entropy_metric uniform4_64 (full (N := binary64) [0; 3; 4] 0%float)
       tt tt) = true.
Proof.
  apply (@entropy_metric_of_empty_batch_is_nan uniform4_64
           (full (N := binary64) [0; 3; 4] 0%float) unit unit tt tt).
  reflexivity.
Defined.

(** ** The defaults of [__init__] *)



(** ** Masked weights in float64 *)

(** In IEEE 754 arithmetic any number times a zero is a zero or nan. *)
Lemma float_mul_zero_or_nan (x m : float) :
  PrimFloat.is_zero m = true ->
  PrimFloat.is_zero (PrimFloat.mul x m) = true \/
  PrimFloat.is_nan (PrimFloat.mul x m) = true.
Proof.
  intros Hm. destruct (@is_zero_spec m Hm) as [sm Em].
  unfold PrimFloat.is_zero, PrimFloat.is_nan.
  rewrite !eqb_spec, !mul_spec, Em.
  change (Prim2SF PrimFloat.zero) with (S754_zero false).
  destruct (Prim2SF x) as [s|s| |s mm e].
  - left. reflexivity.
  - right. reflexivity.
  - right. reflexivity.
  - left. reflexivity.
Qed.

(** In float64, where the mask is 0 the weight is never a number other than
    zero: it is a zero, or nan when [weight_fn] returned an infinity or nan
    there. *)
Theorem masked_weight_is_zero_or_nan (self : PolicyTrainTask binary64)
    (tb : TrajectoryNp binary64) o a w s' (i t : nat) :
  build self tb = (Ok (o, a, w), s') ->
  in_range [i; t] (vshape w) = true ->
  PrimFloat.is_zero (item (mask tb) [i; t]) = true ->
  PrimFloat.is_zero (item (deref (mem s') w) [i; t]) = true \/
  PrimFloat.is_nan (item (deref (mem s') w) [i; t]) = true.
Proof.
  intros H Hit H0. apply build_ok_inv in H.
  destruct H as (B & T & k & ro & ra & Hacc & -> & -> & -> & ->).
  assert (Hlt : i < B /\ t < k) by (apply in_range_2; exact Hit).
  destruct Hlt as [Hi Ht].
  cbn [mem]. rewrite (item_weights self tb Hi Ht).
  apply float_mul_zero_or_nan, H0.
Qed.

Lemma masked_weight_is_zero_or_nan_witness :
  PrimFloat.is_zero
    (item (deref (mem (snd (build squaring_task overflow_batch64)))
             (View Weights [1; 2])) [0; 1]) = true \/
  PrimFloat.is_nan
    (item (deref (mem (snd (build squaring_task overflow_batch64)))
             (View Weights [1; 2])) [0; 1]) = true.
Proof.
  apply (@masked_weight_is_zero_or_nan squaring_task overflow_batch64
           (View Observations [1; 2]) (View Actions [1; 2])
           (View Weights [1; 2])
           (snd (build squaring_task overflow_batch64)) 0 1);
    reflexivity.
Defined.

(** ** The weights of A2C, and returns that share memory with the advantages *)

Section A2C.

Local Open Scope R_scope.

(** End to end, for the identity [weight_fn] (A2C), in exact arithmetic: the
    weights are the estimator's advantages, minus the mean of all their
    entries and divided by their population standard deviation plus epsilon
    when normalisation is on, times the mask. *)
Theorem a2c_weights (self : PolicyTrainTask exact) (tb : TrajectoryNp exact)
    o a w s' :
  (forall x, weight_fn self x = x) ->
  build self tb = (Ok (o, a, w), s') ->
  exists A : ndarray exact,
    In (Call_advantage_estimator A) (log s') /\
    shape A = vshape w /\
    forall i t,
      in_range [i; t]%nat (vshape w) = true ->
      item (deref (mem s') w) [i; t]%nat
      = (if advantage_normalization self
         then (item A [i; t]%nat - Rmean (ravel A))
              / (Rpstd (ravel A) + advantage_normalization_epsilon self)
         else item A [i; t]%nat)
        * item (mask tb) [i; t]%nat.
Proof.
  intros Hid H. apply build_ok_inv in H.
  destruct H as (B & T & k & ro & ra & Hacc & -> & -> & -> & ->).
  destruct Hacc as [Ho Ha Hm Hv Hadv Hk Hw].
  exists (raw_advantages self tb). cbn [mem log vshape].
  split; [apply log_final_estimator|].
  split; [exact Hadv|].
  intros i t Hit.
  assert (Hlt : (i < B /\ t < k)%nat) by (apply in_range_2; exact Hit).
  destruct Hlt as [Hi Ht].
  rewrite item_weights by assumption.
  rewrite Hid.
  rewrite bidx_in_range by (rewrite shape_advantages_array, Hadv; exact Hit).
  change (mul exact) with Rmult. f_equal.
  destruct (advantage_normalization self) eqn:Hn.
  - apply item_normalized_exact;
      [exact Hn | rewrite shape_raw_advantages, Hadv; exact Hit].
  - rewrite (advantages_array_off self tb Hn). reflexivity.
Qed.

End A2C.

Lemma a2c_weights_witness :
  exists A : ndarray exact,
    In (Call_advantage_estimator A)
       (log (snd (build (a2c_task 0 true default_epsilon)
                    low_variance_batch))) /\
    shape A = [1; 2] /\
    forall i t,
      in_range [i; t] [1; 2] = true ->
      item (deref (mem (snd (build (a2c_task 0 true default_epsilon)
                               low_variance_batch)))
                  (View Weights [1; 2])) [i; t]
      = ((if advantage_normalization (a2c_task 0 true default_epsilon)
          then (item A [i; t] - Rmean (ravel A))
               / (Rpstd (ravel A)
                  + advantage_normalization_epsilon
                      (a2c_task 0 true default_epsilon))
          else item A [i; t])
         * item (mask low_variance_batch) [i; t])%R.
Proof.
  apply (@a2c_weights (a2c_task 0 true default_epsilon) low_variance_batch
           (View Observations [1; 2]) (View Actions [1; 2])
           (View Weights [1; 2])
           (snd (build (a2c_task 0 true default_epsilon)
                   low_variance_batch))).
  - intros x. reflexivity.
  - reflexivity.
Defined.

Section AliasedReturns.

Context {N : arithmetic}.
Variable self : PolicyTrainTask N.
Variable tb : TrajectoryNp N.


End AliasedReturns.


